(** * ProcessRunnerService (src/services/process.py)

    A shallow embedding of the asynchronous subprocess runner.  The Python
    object, the [io.StringIO] buffers it references and the [anyio] process
    handles live in an explicit store; coroutines are functions in a small
    state-and-exception monad with a third outcome for a coroutine that never
    resumes.  The operating system is a deterministic, timed description of
    what the spawned program does.

    What the embedding leaves out.  Time is counted in ticks; a callback takes
    no time and does not touch the instance; a stream carries text chunks, as
    [TextReceiveStream] yields them (decoding is not modelled); a stream ends
    when its process is gone; nothing cancels [run] or [terminate] from
    outside; the calls to [logger] are dropped.  The two pumps of a run touch
    disjoint buffers and nothing else, so they are run one after the other
    when the task group is left, on everything their streams carry. *)

From Stdlib Require Import ZArith String List Lia Bool.
From stdpp Require Import base option list gmap strings.

Local Open Scope Z_scope.
Local Open Scope nat_scope.

(** ** Time, exceptions, outcomes *)

(** Wall-clock instants and durations, in ticks. *)
Definition time := nat.

(** The exception classes that occur in the module.  Every one of them is a
    subclass of Python's [Exception]. *)
Inductive exn : Type :=
| OSError                        (* open_process: the OS cannot create the process *)
| TypeError                      (* call binding: unexpected / repeated keyword *)
| ProcessLookupError             (* a handle that names no process *)
| TimeoutError                   (* raised by anyio.fail_after *)
| ProcessTimeoutError            (* class ProcessTimeoutError(Exception) *)
| UserError (msg : string).      (* an Exception raised by user code *)

Inductive outcome (A : Type) : Type :=
| Return (a : A)                 (* the coroutine returned a *)
| Raise (e : exn)                (* the coroutine raised e *)
| Hang.                          (* the coroutine awaits for ever *)
Arguments Return {A} a.
Arguments Raise {A} e.
Arguments Hang {A}.

(** ** The operating-system side *)

Inductive signal := SIGTERM | SIGKILL.

(** What a program does once started; instants are relative to its start.
    [prog_exit = None] is a program that never exits on its own;
    [prog_sigterm = None] is a program that ignores the terminate signal,
    [Some (d, c)] one that exits with code [c], [d] ticks after receiving it. *)
Record program := {
  prog_stdout : list (time * string);
  prog_stderr : list (time * string);
  prog_exit : option (time * Z);
  prog_sigterm : option (time * Z);
}.

(** An [anyio.abc.Process] object.  [proc_exit] is the instant (absolute) at
    which the process is gone and its return code, as far as it is settled by
    the program and the signals delivered so far. *)
Record Process := {
  proc_prog : program;
  proc_start : time;
  proc_stdout_piped : bool;       (* process.stdout is not None *)
  proc_stderr_piped : bool;       (* process.stderr is not None *)
  proc_exit : option (time * Z);
}.

Definition set_proc_exit (p : Process) (e : option (time * Z)) : Process :=
  {| proc_prog := proc_prog p; proc_start := proc_start p;
     proc_stdout_piped := proc_stdout_piped p;
     proc_stderr_piped := proc_stderr_piped p;
     proc_exit := e |}.

Definition exit_time (p : Process) : option time := fst <$> proc_exit p.

(** [not_after t o]: instant [t] is not later than the optional bound [o]. *)
Definition not_after (t : time) (o : option time) : bool :=
  match o with Some b => t <=? b | None => true end.

Definition alive (p : Process) (now : time) : bool :=
  match proc_exit p with Some (t, _) => now <? t | None => true end.

(** Delivery of a signal at instant [now].  A process that is gone is not
    affected; the kill signal ends a live process at once (return code -9);
    the terminate signal runs the program's own reaction, if it has one and
    the program would not have exited earlier anyway. *)
Definition deliver (sig : signal) (now : time) (p : Process) : Process :=
  if alive p now then
    match sig with
    | SIGKILL => set_proc_exit p (Some (now, (-9)%Z))
    | SIGTERM =>
        match prog_sigterm (proc_prog p) with
        | Some (d, c) =>
            if alive p (now + d) then set_proc_exit p (Some (now + d, c)) else p
        | None => p
        end
    end
  else p.

Inductive stream_id := Stdout | Stderr.

Definition script (s : stream_id) (g : program) : list (time * string) :=
  match s with Stdout => prog_stdout g | Stderr => prog_stderr g end.

Definition piped (s : stream_id) (p : Process) : bool :=
  match s with Stdout => proc_stdout_piped p | Stderr => proc_stderr_piped p end.

(** The chunks process [p] has written to stream [s]: those of its script
    whose instant is not after the process's exit, nor after [upto]. *)
Definition written (s : stream_id) (p : Process) (upto : option time) : list string :=
  snd <$> filter (fun c => not_after (proc_start p + fst c) (exit_time p)
                           && not_after (proc_start p + fst c) upto)
                 (script s (proc_prog p)).

(** ** Keyword arguments *)

Inductive kwval := PIPE | DEVNULL | KwValue (v : string).

(** [**kwargs]: a dict from keyword names to values. *)
Abbreviation kwargs := (gmap string kwval).

(** ** Callbacks *)

(** A callback is observed through whether it is a coroutine function and
    through what each call does: given the chunks it was handed earlier by this
    pump (latest first) and the current chunk, it returns ([None]) or raises. *)
Record callback := {
  cb_is_coroutine : bool;
  cb_call : list string -> string -> option exn;
}.

(** ** The instance and the store *)

Record ProcessRunnerService := {
  cmd : list string;
  cwd : string;
  stdout_callback : option callback;
  stderr_callback : option callback;
  timeout : option time;
  terminate_grace_period : time;
  _stdout_history : nat;          (* reference to an io.StringIO *)
  _stderr_history : nat;          (* reference to an io.StringIO *)
  _process : option nat;          (* reference to a Process *)
}.

Inductive pump_end := EndOfStream | Cancelled.

Inductive event :=
| EvSpawn (pid : nat) (at_time : time)
| EvSignal (pid : nat) (sig : signal) (at_time : time)
| EvCallback (buffer : nat) (text : string) (in_thread : bool) (raised : option exn)
| EvPump (buffer : nat) (how : pump_end).

Record state := {
  self : ProcessRunnerService;
  heap : gmap nat string;         (* the io.StringIO objects *)
  next_ref : nat;
  procs : gmap nat Process;       (* the Process objects *)
  next_pid : nat;
  os_exec : list string -> string -> kwargs -> option program;
  clock : time;
  trace : list event;             (* newest first *)
}.

Definition with_self (f : ProcessRunnerService -> ProcessRunnerService) (st : state) : state :=
  {| self := f (self st); heap := heap st; next_ref := next_ref st;
     procs := procs st; next_pid := next_pid st; os_exec := os_exec st;
     clock := clock st; trace := trace st |}.

Definition with_heap (h : gmap nat string) (n : nat) (st : state) : state :=
  {| self := self st; heap := h; next_ref := n;
     procs := procs st; next_pid := next_pid st; os_exec := os_exec st;
     clock := clock st; trace := trace st |}.

Definition with_procs (ps : gmap nat Process) (n : nat) (st : state) : state :=
  {| self := self st; heap := heap st; next_ref := next_ref st;
     procs := ps; next_pid := n; os_exec := os_exec st;
     clock := clock st; trace := trace st |}.

Definition with_clock (t : time) (st : state) : state :=
  {| self := self st; heap := heap st; next_ref := next_ref st;
     procs := procs st; next_pid := next_pid st; os_exec := os_exec st;
     clock := t; trace := trace st |}.

Definition log (ev : event) (st : state) : state :=
  {| self := self st; heap := heap st; next_ref := next_ref st;
     procs := procs st; next_pid := next_pid st; os_exec := os_exec st;
     clock := clock st; trace := ev :: trace st |}.

Definition set_stdout_history (r : nat) (s : ProcessRunnerService) : ProcessRunnerService :=
  {| cmd := cmd s; cwd := cwd s; stdout_callback := stdout_callback s;
     stderr_callback := stderr_callback s; timeout := timeout s;
     terminate_grace_period := terminate_grace_period s;
     _stdout_history := r; _stderr_history := _stderr_history s;
     _process := _process s |}.

Definition set_stderr_history (r : nat) (s : ProcessRunnerService) : ProcessRunnerService :=
  {| cmd := cmd s; cwd := cwd s; stdout_callback := stdout_callback s;
     stderr_callback := stderr_callback s; timeout := timeout s;
     terminate_grace_period := terminate_grace_period s;
     _stdout_history := _stdout_history s; _stderr_history := r;
     _process := _process s |}.

Definition set_process (p : option nat) (s : ProcessRunnerService) : ProcessRunnerService :=
  {| cmd := cmd s; cwd := cwd s; stdout_callback := stdout_callback s;
     stderr_callback := stderr_callback s; timeout := timeout s;
     terminate_grace_period := terminate_grace_period s;
     _stdout_history := _stdout_history s; _stderr_history := _stderr_history s;
     _process := p |}.

(** ** Coroutines *)

Definition M (A : Type) : Type := state -> outcome A * state.

Definition ret {A} (a : A) : M A := fun st => (Return a, st).

Definition raise {A} (e : exn) : M A := fun st => (Raise e, st).

Definition bind {A B} (m : M A) (k : A -> M B) : M B := fun st =>
  match m st with
  | (Return a, st') => k a st'
  | (Raise e, st') => (Raise e, st')
  | (Hang, st') => (Hang, st')
  end.

Notation "x <- m ;; k" := (bind m (fun x => k))
  (at level 100, m at next level, right associativity).
Notation "m ;; k" := (bind m (fun _ => k))
  (at level 100, right associativity).

Definition gets {A} (f : state -> A) : M A := fun st => (Return (f st), st).

Definition modify (f : state -> state) : M unit := fun st => (Return tt, f st).

(** [try: m except e: h e] *)
Definition try_except {A} (m : M A) (h : exn -> M A) : M A := fun st =>
  match m st with
  | (Raise e, st') => h e st'
  | r => r
  end.

(** [try: m finally: fin].  A body that never finishes never reaches the
    [finally] clause. *)
Definition try_finally {A} (m : M A) (fin : M unit) : M A := fun st =>
  match m st with
  | (Return a, st') => (_ <- fin ;; ret a) st'
  | (Raise e, st') => (_ <- fin ;; raise e) st'
  | (Hang, st') => (Hang, st')
  end.

Definition hang {A} : M A := fun st => (Hang, st).

Fixpoint for_each {A} (f : A -> M unit) (l : list A) : M unit :=
  match l with
  | [] => ret tt
  | x :: l' => f x ;; for_each f l'
  end.

(** ** io.StringIO *)

(** [io.StringIO()]: a new, empty buffer object. *)
Definition StringIO : M nat := fun st =>
  (Return (next_ref st),
   with_heap (<[next_ref st := ""%string]> (heap st)) (S (next_ref st)) st).

(** [buffer.getvalue()] and [buffer.write(text)] *)
Definition getvalue (r : nat) (st : state) : string := default ""%string (heap st !! r).

Definition StringIO_write (r : nat) (text : string) : M unit :=
  modify (fun st => with_heap (<[r := (getvalue r st +:+ text)%string]> (heap st)) (next_ref st) st).

(** ** anyio: processes *)

(** The keyword parameters of [anyio.open_process]. *)
Definition open_process_keywords : list string :=
  ["stdin"; "stdout"; "stderr"; "cwd"; "env"; "startupinfo"; "creationflags";
   "start_new_session"; "pass_fds"; "user"; "group"; "extra_groups"; "umask"]%string.

(** Is [k] one of the keyword parameters [names]? *)
Definition keyword_in (names : list string) (k : string) : bool :=
  existsb (String.eqb k) names.

(** A stream of the child is a pipe unless the keyword says otherwise. *)
Definition is_pipe (v : option kwval) : bool :=
  match v with None | Some PIPE => true | Some _ => false end.

(** The process object for program [g] started at instant [now]. *)
Definition new_process (g : program) (kw : kwargs) (now : time) : Process :=
  {| proc_prog := g; proc_start := now;
     proc_stdout_piped := is_pipe (kw !! "stdout"%string);
     proc_stderr_piped := is_pipe (kw !! "stderr"%string);
     proc_exit := (fun e => (now + fst e, snd e)) <$> prog_exit g |}.

(** The keywords [run] may pass on: those of [open_process], except [cwd],
    which [run] gives itself. *)
Definition spawn_kwargs_ok (kw : kwargs) : bool :=
  forallb (fun k => keyword_in open_process_keywords k
                    && negb (String.eqb k "cwd"))
          (fst <$> map_to_list kw).

(** [anyio.open_process(command, cwd=cwd, **kw)].  A keyword the function does
    not have, or [cwd] given twice, is a [TypeError] of the call itself; the
    operating system then either starts the program or refuses. *)
Definition open_process (command : list string) (cwd_ : string)
    (kw : kwargs) : M nat := fun st =>
  if spawn_kwargs_ok kw
  then
    match os_exec st command cwd_ kw with
    | Some g =>
        let pid := next_pid st in
        (Return pid,
         log (EvSpawn pid (clock st))
             (with_procs (<[pid := new_process g kw (clock st)]> (procs st)) (S pid) st))
    | None => (Raise OSError, st)
    end
  else (Raise TypeError, st).

(** Sending a signal through the handle. *)
Definition send_signal (pid : nat) (sig : signal) : M unit := fun st =>
  match procs st !! pid with
  | Some p =>
      (Return tt,
       log (EvSignal pid sig (clock st))
           (with_procs (<[pid := deliver sig (clock st) p]> (procs st)) (next_pid st) st))
  | None => (Raise ProcessLookupError, st)
  end.

(** [process.terminate()] and [process.kill()] *)
Definition Process_terminate (pid : nat) : M unit := send_signal pid SIGTERM.
Definition Process_kill (pid : nat) : M unit := send_signal pid SIGKILL.

(** [await process.wait()] inside a cancel scope with the given deadline
    ([None]: no scope).  The wait completes when the process is gone; if the
    deadline passes first, the scope cancels the wait and [TimeoutError] is
    raised at the deadline.  An exit at the very deadline still completes the
    wait. *)
Definition Process_wait (pid : nat) (deadline : option time) : M Z := fun st =>
  match procs st !! pid with
  | Some p =>
      match proc_exit p, deadline with
      | Some (t, c), Some d =>
          if clock st `max` t <=? d
          then (Return c, with_clock (clock st `max` t) st)
          else (Raise TimeoutError, with_clock (clock st `max` d) st)
      | Some (t, c), None => (Return c, with_clock (clock st `max` t) st)
      | None, Some d => (Raise TimeoutError, with_clock (clock st `max` d) st)
      | None, None => (Hang, st)
      end
  | None => (Raise ProcessLookupError, st)
  end.

(** [with anyio.fail_after(delay): body], for a body that takes its deadline. *)
Definition fail_after {A} (delay : time) (body : option time -> M A) : M A :=
  fun st => body (Some (clock st + delay)) st.

(** [process.returncode] *)
Definition returncode (pid : nat) (st : state) : option Z :=
  match procs st !! pid with
  | Some p => if alive p (clock st) then None else snd <$> proc_exit p
  | None => None
  end.

(** [Process.aclose()], run when the [async with process] block is left: the
    streams are closed and the process is awaited. *)
Definition Process_aclose (pid : nat) : M unit :=
  _ <- Process_wait pid None ;; ret tt.

(** [async with process: body] *)
Definition async_with_process {A} (pid : nat) (body : M A) : M A :=
  try_finally body (Process_aclose pid).

(** ** Callbacks and the stream pump *)

(** [await callback(text)] (a coroutine function, awaited in the pump's own
    task) and [await anyio.to_thread.run_sync(callback, text)] (a plain
    function, run in a worker thread).  Either way an exception of the callback
    is raised at the [await]. *)
Definition call_callback (in_thread : bool) (cb : callback) (buffer : nat)
    (seen : list string) (text : string) : M unit := fun st =>
  let r := cb_call cb seen text in
  (match r with None => Return tt | Some e => Raise e end,
   log (EvCallback buffer text in_thread r) st).

Definition await_callback := call_callback false.
Definition to_thread_run_sync := call_callback true.

(** [_handle_stream(stream, callback, buffer)] (process.py, lines 62-84).
    [stream] is the sequence of
    text chunks the receive stream yields before it ends; [seen] holds the
    chunks already handed to the callback.  The [except Exception] clause
    swallows whatever the callback raises (it is only logged). *)
Fixpoint _handle_stream (stream : list string) (callback : option callback)
    (buffer : nat) (seen : list string) : M unit :=
  match stream with
  | [] => ret tt                                   (* anyio.EndOfStream *)
  | text :: rest =>
      match callback with
      | Some cb =>
          try_except
            (if cb_is_coroutine cb
             then await_callback cb buffer seen text
             else to_thread_run_sync cb buffer seen text)
            (fun _ => ret tt)
      | None => ret tt
      end ;;
      StringIO_write buffer text ;;
      _handle_stream rest callback buffer (text :: seen)
  end.

(** ** anyio: task groups *)

(** A child started with [tg.start_soon(self._handle_stream, TextReceiveStream(s),
    callback, buffer)]. *)
Record pump_task := {
  pt_stream : stream_id;
  pt_callback : option callback;
  pt_buffer : nat;
}.

(** The child reads what its stream carries: everything the process writes
    when the child is left alone ([upto = None]), and what was written up to
    the instant of cancellation otherwise. *)
Definition pump_drain (pid : nat) (upto : option time) (t : pump_task) : M unit := fun st =>
  match procs st !! pid with
  | Some p =>
      _handle_stream (written (pt_stream t) p upto) (pt_callback t) (pt_buffer t) [] st
  | None => (Raise ProcessLookupError, st)
  end.

(** How the child ends.  Left alone, it ends when its stream does, that is when
    the process is gone (never, if the process never exits).  Cancelled, it
    ends at once, by the cancellation unless its stream had ended before. *)
Definition pump_finish (pid : nat) (cancel : bool) (t : pump_task) : M unit := fun st =>
  match procs st !! pid with
  | Some p =>
      if cancel then
        (Return tt,
         log (EvPump (pt_buffer t)
                (if alive p (clock st) then Cancelled else EndOfStream)) st)
      else
        match exit_time p with
        | Some te =>
            (Return tt,
             log (EvPump (pt_buffer t) EndOfStream) (with_clock (clock st `max` te) st))
        | None => (Hang, st)
        end
  | None => (Raise ProcessLookupError, st)
  end.

(** Waiting for the children of the group. *)
Definition join (pid : nat) (cancel : bool) (children : list pump_task) : M unit :=
  upto <- gets (fun st => if cancel then Some (clock st) else None) ;;
  for_each (pump_drain pid upto) children ;;
  for_each (pump_finish pid cancel) children.

(** [async with anyio.create_task_group() as tg: <start children>; body].
    Leaving the block waits for the children.  If the body raised, the group's
    cancel scope is cancelled first, so the children are cancelled; the
    cancellation artefacts are suppressed ([except* CancelledError: pass]) and
    the body's exception comes out. *)
Definition create_task_group {A} (pid : nat) (children : list pump_task)
    (body : M A) : M A := fun st =>
  match body st with
  | (Return a, st') => (join pid false children ;; ret a) st'
  | (Raise e, st') => (join pid true children ;; raise e) st'
  | (Hang, st') => (join pid false children ;; hang) st'
  end.

(** ** ProcessRunnerService *)

(** [__init__] (process.py, lines 33-60): the instance in a world that holds
    nothing else. *)
Definition __init__ (cmd_ : list string) (cwd_ : string)
    (stdout_cb stderr_cb : option callback) (timeout_ : option time)
    (grace : time) (os : list string -> string -> kwargs -> option program) : state :=
  {| self := {| cmd := cmd_; cwd := cwd_;
                stdout_callback := stdout_cb; stderr_callback := stderr_cb;
                timeout := timeout_; terminate_grace_period := grace;
                _stdout_history := 0; _stderr_history := 1; _process := None |};
     heap := <[1 := ""%string]> (<[0 := ""%string]> ∅); next_ref := 2;
     procs := ∅; next_pid := 0; os_exec := os; clock := 0; trace := [] |}.

(** The properties [stdout], [stderr] and [is_running] (process.py, lines
    183-194). *)
Definition stdout (st : state) : string := getvalue (_stdout_history (self st)) st.
Definition stderr (st : state) : string := getvalue (_stderr_history (self st)) st.
Definition is_running (st : state) : bool :=
  match _process (self st) with Some _ => true | None => false end.

(** [clear_history] (process.py, lines 196-199) *)
Definition clear_history : M unit :=
  out <- StringIO ;;
  modify (with_self (set_stdout_history out)) ;;
  err <- StringIO ;;
  modify (with_self (set_stderr_history err)).

(** [terminate] (process.py, lines 86-103) *)
Definition terminate : M unit :=
  s <- gets self ;;
  match _process s with
  | Some process =>
      Process_terminate process ;;
      try_except
        (fail_after (terminate_grace_period s) (Process_wait process) ;;
         ret tt)
        (fun e =>
           match e with
           | TimeoutError => Process_kill process
           | _ => raise e
           end)
  | None => ret tt
  end.

(** [terminate] cut at its first suspension point, the [await] of
    [process.wait()]: what a call does before any other task can run, and how
    it goes on once resumed. *)
Definition terminate_until_wait : M unit :=
  s <- gets self ;;
  match _process s with
  | Some process => Process_terminate process
  | None => ret tt
  end.

Definition terminate_from_wait : M unit :=
  s <- gets self ;;
  match _process s with
  | Some process =>
      try_except
        (fail_after (terminate_grace_period s) (Process_wait process) ;;
         ret tt)
        (fun e =>
           match e with
           | TimeoutError => Process_kill process
           | _ => raise e
           end)
  | None => ret tt
  end.

(** [run] (process.py, lines 105-177).  The children of the task group are
    the two [tg.start_soon] calls, each under its [is not None] guard; the body
    of the group is the wait with its [except TimeoutError] clause. *)
Definition run (kw : kwargs) : M (option Z * string * string) :=
  (* Reinitialize the output buffers for each run. *)
  out <- StringIO ;;
  modify (with_self (set_stdout_history out)) ;;
  err <- StringIO ;;
  modify (with_self (set_stderr_history err)) ;;
  try_finally
    (s <- gets self ;;
     process <- open_process (cmd s) (cwd s) kw ;;
     async_with_process process
       (modify (with_self (set_process (Some process))) ;;
        p <- gets (fun st => procs st !! process) ;;
        is_timed_out <-
          create_task_group process
            ((if from_option proc_stdout_piped false p
              then [{| pt_stream := Stdout; pt_callback := stdout_callback s;
                       pt_buffer := _stdout_history s |}]
              else []) ++
             (if from_option proc_stderr_piped false p
              then [{| pt_stream := Stderr; pt_callback := stderr_callback s;
                       pt_buffer := _stderr_history s |}]
              else []))
            (try_except
               (match timeout s with
                | Some t => fail_after t (Process_wait process)
                | None => Process_wait process None
                end ;;
                ret false)
               (fun e =>
                  match e with
                  | TimeoutError => terminate ;; ret true
                  | _ => raise e
                  end)) ;;
        if (is_timed_out : bool) then raise ProcessTimeoutError
        else
          rc <- gets (returncode process) ;;
          out <- gets stdout ;;
          err <- gets stderr ;;
          ret (rc, out, err)))
    (modify (with_self (set_process None))).

(** ** anyio.run and run_sync *)

(** The keyword parameters of [anyio.run(func, *args, backend, backend_options)]. *)
Definition anyio_run_keywords : list string := ["backend"; "backend_options"]%string.

(** The keywords [anyio.run] takes are its own; [func] is then called with no
    argument at all. *)
Definition run_kwargs_ok (kw : kwargs) : bool :=
  forallb (keyword_in anyio_run_keywords) (fst <$> map_to_list kw).

(** [anyio.run(func, **kw)] *)
Definition anyio_run {A} (func : kwargs -> M A) (kw : kwargs) : M A := fun st =>
  if run_kwargs_ok kw
  then func ∅ st
  else (Raise TypeError, st).

(** [run_sync] (process.py, lines 179-181) *)
Definition run_sync (kw : kwargs) : M (option Z * string * string) :=
  anyio_run run kw.

(** ** The task (src/tasks/process_run.py) *)




(** ** Settings (src/constants.py, src/config.py) *)

Module Config.



(** The Python values a setting can be given: a [str], an [int], a [bool]
    (which is an [int] too), or an object of any other type, known by its
    [repr]. *)
Inductive pyval :=
| PyStr (s : string)
| PyInt (n : Z)
| PyBool (b : bool)
| PyOther (repr : string).

(** [isinstance(v, str)], [isinstance(v, int)], and the number an [int]
    compares equal to. *)
Definition is_str (v : pyval) : bool :=
  match v with PyStr _ => true | _ => false end.

Definition is_int (v : pyval) : bool :=
  match v with PyInt _ | PyBool _ => true | _ => false end.

Definition as_int (v : pyval) : Z :=
  match v with
  | PyInt n => n
  | PyBool b => Z.b2z b
  | _ => 0%Z
  end.

(** How a validator ends: with a value or with one of three exceptions. *)
Inductive result (R : Type) : Type :=
| Ok (r : R)
| AssertionError
| ValueError (v : pyval)            (* f"Invalid log level: {v}" *)
| ValidationError (msg : string).   (* raised by the inner validator *)
Arguments Ok {R} r.
Arguments AssertionError {R}.
Arguments ValueError {R} v.
Arguments ValidationError {R} msg.

(** [n in name_to_level.values()] *)
Definition is_level (name_to_level : gmap string Z) (n : Z) : bool :=
  existsb (Z.eqb n) (snd <$> map_to_list name_to_level).

(** [validate_log_level_pydantic(v, handler, info)] (config.py, lines 13-24),
    with assertions enabled.  [name_to_level] is what
    [logging.getLevelNamesMapping()] returns; [handler] is the inner validator
    of the field. *)
Definition validate_log_level_pydantic {R} (name_to_level : gmap string Z)
    (v : pyval) (handler : pyval -> result R) : result R :=
  match v with
  | PyStr s =>                                   (* isinstance(v, str) *)
      match name_to_level !! s with
      | Some level => handler (PyInt level)
      | None => AssertionError
      end
  | PyInt _ | PyBool _ =>                        (* isinstance(v, int) *)
      if is_level name_to_level (as_int v) then handler v else AssertionError
  | PyOther _ => ValueError v
  end.

(** The mapping of a [logging] module nobody added a level to. *)
Definition standard_levels : gmap string Z :=
  list_to_map [("CRITICAL", 50); ("FATAL", 50); ("ERROR", 40); ("WARN", 30);
               ("WARNING", 30); ("INFO", 20); ("DEBUG", 10); ("NOTSET", 0)]%string%Z.








End Config.

(** ** The benchmark (scripts/benchmark) *)

Module Benchmark.

(** A call [add(a, b)] of the task as it is queued, which is also what the
    handle of its result stands for. *)
Record call := { arg_a : Z; arg_b : Z }.

(** [enqueue_tasks(n)] (enqueue_task.py, lines 6-11): the loop over
    [range(n)] that appends one handle per call. *)
Definition enqueue_tasks (n : Z) : list call :=
  foldl (fun results i => results ++ [{| arg_a := i; arg_b := i + 1 |}])
        [] (seqZ 0 n).



(** [sum(i * i for i in range(n))], and the [cpu_work] of the task. *)
Definition sum_squares (n : Z) : Z :=
  foldl Z.add 0%Z ((fun i => i * i)%Z <$> seqZ 0 n).

Definition cpu_work : Z := sum_squares 100000.

(** The body of the task [add(a, b)] (demo_tasks.py, lines 10-20): it starts
    [sleep 0.1] in the working directory it has, waits for it inside the
    [async with] block, then adds. *)
Definition add (a b : Z) : M Z :=
  anyio_run
    (fun _ =>
       proc <- open_process ["sleep"; "0.1"]%string "."%string ∅ ;;
       async_with_process proc (_ <- Process_wait proc None ;; ret tt) ;;
       ret (a + b + cpu_work)%Z)
    ∅.

End Benchmark.

(** * Vocabulary of the properties *)

(** ** Text and the stream pump *)

(** [''.join(chunks)] *)
Definition text_of (chunks : list string) : string :=
  foldr String.append ""%string chunks.

(** The state a pump leaves behind and the callback events it adds. *)
Definition pump_state (stream : list string) (callback : option callback)
    (buffer : nat) (seen : list string) (st : state) : state :=
  snd (_handle_stream stream callback buffer seen st).

(** The event one turn of the pump's loop adds, and all of them for a
    stream (newest first). *)
Definition callback_event (callback : option callback) (buffer : nat)
    (seen : list string) (text : string) : list event :=
  match callback with
  | Some cb => [EvCallback buffer text (negb (cb_is_coroutine cb)) (cb_call cb seen text)]
  | None => []
  end.

Fixpoint pump_events (stream : list string) (callback : option callback)
    (buffer : nat) (seen : list string) : list event :=
  match stream with
  | [] => []
  | text :: rest =>
      pump_events rest callback buffer (text :: seen)
      ++ callback_event callback buffer seen text
  end.

(** The state updates of [buffer.write(text)] and of logging some events. *)
Definition write_state (r : nat) (text : string) (st : state) : state :=
  with_heap (<[r := (getvalue r st +:+ text)%string]> (heap st)) (next_ref st) st.

Definition log_all (evs : list event) (st : state) : state :=
  {| self := self st; heap := heap st; next_ref := next_ref st;
     procs := procs st; next_pid := next_pid st; os_exec := os_exec st;
     clock := clock st; trace := evs ++ trace st |}.

(** ** Weakest preconditions *)

(** [wp m st Q]: running [m] from [st] ends in an outcome and a state that
    satisfy [Q]. *)
Definition wp {A} (m : M A) (st : state) (Q : outcome A -> state -> Prop) : Prop :=
  Q (fst (m st)) (snd (m st)).

(** ** Two-stage termination *)

(** Whether the termination started at [now] has to escalate to the kill
    signal, what it makes of process [p], which signals it sends (newest
    first), and when it is over. *)
Definition escalates (now grace : time) (p : Process) : bool :=
  alive (deliver SIGTERM now p) (now + grace).

Definition terminate_process (now grace : time) (p : Process) : Process :=
  if escalates now grace p
  then deliver SIGKILL (now + grace) (deliver SIGTERM now p)
  else deliver SIGTERM now p.

Definition terminate_events (pid : nat) (now grace : time) (p : Process) : list event :=
  if escalates now grace p
  then [EvSignal pid SIGKILL (now + grace); EvSignal pid SIGTERM now]
  else [EvSignal pid SIGTERM now].

Definition terminate_end (now grace : time) (p : Process) : time :=
  if escalates now grace p then now + grace
  else now `max` default 0 (exit_time (deliver SIGTERM now p)).

(** ** The pumps of a run *)

(** What the children leave in buffer [r], the callback events they add, and
    the events of their ends. *)
Fixpoint drained_text (p : Process) (upto : option time)
    (children : list pump_task) (r : nat) : string :=
  match children with
  | [] => ""
  | t :: rest =>
      (if Nat.eqb (pt_buffer t) r then text_of (written (pt_stream t) p upto) else "")
      +:+ drained_text p upto rest r
  end%string.

Fixpoint drain_events (p : Process) (upto : option time)
    (children : list pump_task) : list event :=
  match children with
  | [] => []
  | t :: rest =>
      drain_events p upto rest
      ++ pump_events (written (pt_stream t) p upto) (pt_callback t) (pt_buffer t) []
  end.

Fixpoint finish_events (children : list pump_task) : list event :=
  match children with
  | [] => []
  | t :: rest => finish_events rest ++ [EvPump (pt_buffer t) EndOfStream]
  end.

(** The children [run] starts for process [p]: one pump per stream that is a
    pipe, writing to the buffers created at the start of this run. *)
Definition run_pumps (st : state) (p : Process) : list pump_task :=
  (if proc_stdout_piped p
   then [{| pt_stream := Stdout; pt_callback := stdout_callback (self st);
            pt_buffer := next_ref st |}]
   else []) ++
  (if proc_stderr_piped p
   then [{| pt_stream := Stderr; pt_callback := stderr_callback (self st);
            pt_buffer := S (next_ref st) |}]
   else []).

(** What a run captures of stream [s] of process [p]. *)
Definition captured (s : stream_id) (p : Process) : string :=
  if piped s p then text_of (written s p None) else ""%string.

(** The events a finished run adds, for the process it ran and the signals
    it sent. *)
Definition run_events (st : state) (p : Process) (signals : list event) : list event :=
  finish_events (run_pumps st p) ++ drain_events p None (run_pumps st p)
  ++ signals ++ [EvSpawn (next_pid st) (clock st)].

(** ** Summary of a run *)

(** Does the program exit on its own within [limit] ([None]: at all)? *)
Definition exits_within (g : program) (limit : option time) : bool :=
  match prog_exit g with
  | Some (t, _) => not_after t limit
  | None => false
  end.

(** The state [run] is left in when no process could be started. *)
Definition no_process_state (st : state) : state :=
  with_self (set_process None) (snd (clear_history st)).

(** The outcome of [run] and the text of the two accessors afterwards, in
    terms of the program, the timeout and the grace period alone. *)
Definition run_summary (kw : kwargs) (st : state)
    : outcome (option Z * string * string) * string * string :=
  if spawn_kwargs_ok kw then
    match os_exec st (cmd (self st)) (cwd (self st)) kw with
    | Some g =>
        let p0 := new_process g kw (clock st) in
        if exits_within g (timeout (self st)) then
          (Return (snd <$> prog_exit g, captured Stdout p0, captured Stderr p0),
           captured Stdout p0, captured Stderr p0)
        else
          match timeout (self st) with
          | Some T =>
              let p := terminate_process (clock st + T)
                         (terminate_grace_period (self st)) p0 in
              (Raise ProcessTimeoutError, captured Stdout p, captured Stderr p)
          | None => (Hang, captured Stdout p0, captured Stderr p0)
          end
    | None => (Raise OSError, ""%string, ""%string)
    end
  else (Raise TypeError, ""%string, ""%string).

(** What the caller of [run] sees: the outcome and the two accessors. *)
Definition observed (kw : kwargs) (st : state)
    : outcome (option Z * string * string) * string * string :=
  (fst (run kw st), stdout (snd (run kw st)), stderr (snd (run kw st))).

(** The instance with other callbacks. *)
Definition set_callbacks (out err : option callback) (s : ProcessRunnerService)
    : ProcessRunnerService :=
  {| cmd := cmd s; cwd := cwd s; stdout_callback := out;
     stderr_callback := err; timeout := timeout s;
     terminate_grace_period := terminate_grace_period s;
     _stdout_history := _stdout_history s; _stderr_history := _stderr_history s;
     _process := _process s |}.





(** ** Sample worlds *)

(** The line feed, and the programs of the module's own demonstration. *)
Definition LF : string := String (Ascii.ascii_of_nat 10) "".

(** [echo hello] *)
Definition hello : program :=
  {| prog_stdout := [(0, ("hello" +:+ LF)%string)]; prog_stderr := [];
     prog_exit := Some (1, 0%Z); prog_sigterm := Some (0, (-15)%Z) |}.

(** [sleep 5], in ticks of a tenth of a second. *)
Definition sleep5 : program :=
  {| prog_stdout := []; prog_stderr := [];
     prog_exit := Some (50, 0%Z); prog_sigterm := Some (0, (-15)%Z) |}.

(** A program that writes now and then, ignores the terminate signal and
    never exits on its own. *)
Definition stubborn : program :=
  {| prog_stdout := [(0, "a"); (2, "b"); (7, "c"); (40, "z")]%string;
     prog_stderr := [(1, "e")]%string;
     prog_exit := None; prog_sigterm := None |}.

(** An operating system that has these three programs and no other. *)
Definition demo_os (command : list string) (cwd_ : string) (kw : kwargs)
    : option program :=
  match command with
  | ["echo"; "hello"]%string => Some hello
  | ["sleep"; "5"]%string => Some sleep5
  | ["stubborn"]%string => Some stubborn
  | _ => None
  end.

(** A callback that raises on every invocation. *)
Definition raising : callback :=
  {| cb_is_coroutine := false; cb_call := fun _ _ => Some (UserError "boom") |}.

(** Fresh instances: [echo hello] with no timeout and raising callbacks,
    [sleep 5] with a timeout of one second, [stubborn] with a timeout of 3 and a
    grace period of 10, and a command that does not exist. *)
Definition st_hello : state :=
  __init__ ["echo"; "hello"]%string "." (Some raising) (Some raising) None 100 demo_os.

Definition st_sleep : state :=
  __init__ ["sleep"; "5"]%string "." None None (Some 10) 100 demo_os.

Definition st_stubborn : state :=
  __init__ ["stubborn"]%string "." (Some raising) None (Some 3) 10 demo_os.

Definition st_missing : state :=
  __init__ ["no-such-program"]%string "." (Some raising) (Some raising) (Some 3) 10 demo_os.


Definition kw_env : kwargs := <["env"%string := KwValue "PATH=/bin"]> ∅.

(** [run] up to the statement [self._process = process]. *)
Definition run_until_started (kw : kwargs) : M unit :=
  out <- StringIO ;;
  modify (with_self (set_stdout_history out)) ;;
  err <- StringIO ;;
  modify (with_self (set_stderr_history err)) ;;
  s <- gets self ;;
  process <- open_process (cmd s) (cwd s) kw ;;
  modify (with_self (set_process (Some process))).

(** The instance in the middle of a run of [stubborn]: the process is started
    and [self._process] is set. *)
Definition st_running : state := snd (run_until_started ∅ st_stubborn).

(** ** Callback invocations *)

(** The invocation an event stands for, if it is one of the callback that
    goes with [buffer]: the chunk, whether the call was made in a worker
    thread, and what the callback raised.  The invocations among some events,
    oldest first, and the chunks they were given. *)
Definition callback_call (buffer : nat) (ev : event)
    : option (string * bool * option exn) :=
  match ev with
  | EvCallback b text in_thread raised =>
      if Nat.eqb b buffer then Some (text, in_thread, raised) else None
  | _ => None
  end.

Definition callback_calls (buffer : nat) (evs : list event)
    : list (string * bool * option exn) :=
  omap (callback_call buffer) (rev evs).

Definition callback_texts (buffer : nat) (evs : list event) : list string :=
  (fun c => fst (fst c)) <$> callback_calls buffer evs.



(** * Properties *)

(** ** Text *)

Lemma append_nil_r (s : string) : (s +:+ "")%string = s.
Proof.
  induction s as [|a s' IH]; [reflexivity|].
  change (String a (s' +:+ "") = String a s')%string. now f_equal.
Qed.

Lemma append_assoc (s1 s2 s3 : string) :
  ((s1 +:+ s2) +:+ s3)%string = (s1 +:+ s2 +:+ s3)%string.
Proof.
  induction s1 as [|a s1' IH]; [reflexivity|].
  change (String a ((s1' +:+ s2) +:+ s3) = String a (s1' +:+ s2 +:+ s3))%string.
  now f_equal.
Qed.

Lemma text_of_app (l1 l2 : list string) :
  text_of (l1 ++ l2) = (text_of l1 +:+ text_of l2)%string.
Proof.
  induction l1 as [|c l1 IH]; simpl; [reflexivity|].
  now rewrite IH, append_assoc.
Qed.

(** ** The stream pump *)

(** One turn of the loop: the callback's outcome does not matter, the chunk
    is written, and the loop goes on with the rest of the stream. *)
Lemma handle_stream_step text rest callback buffer seen st :
  _handle_stream (text :: rest) callback buffer seen st =
  _handle_stream rest callback buffer (text :: seen)
    (write_state buffer text (log_all (callback_event callback buffer seen text) st)).
Proof.
  destruct st as [s h nr ps np os c tr].
  destruct callback as [[co f]|]; simpl.
  - unfold bind, try_except, await_callback, to_thread_run_sync, call_callback.
    simpl. destruct co; simpl; destruct (f seen text); reflexivity.
  - reflexivity.
Qed.

(** The pump always runs to the end of its stream and returns. *)
Lemma handle_stream_returns stream callback buffer seen st :
  _handle_stream stream callback buffer seen st =
  (Return tt, pump_state stream callback buffer seen st).
Proof.
  unfold pump_state. revert seen st.
  induction stream as [|text rest IH]; intros seen st.
  - reflexivity.
  - rewrite handle_stream_step. apply IH.
Qed.

Lemma pump_state_cons text rest callback buffer seen st :
  pump_state (text :: rest) callback buffer seen st =
  pump_state rest callback buffer (text :: seen)
    (write_state buffer text (log_all (callback_event callback buffer seen text) st)).
Proof. unfold pump_state. now rewrite handle_stream_step. Qed.

Section PumpFrame.
Variables (callback : option callback) (buffer : nat).

Lemma pump_state_self stream seen st :
  self (pump_state stream callback buffer seen st) = self st.
Proof.
  revert seen st. induction stream as [|t r IH]; intros seen st; [reflexivity|].
  rewrite pump_state_cons, IH. reflexivity.
Qed.

Lemma pump_state_procs stream seen st :
  procs (pump_state stream callback buffer seen st) = procs st.
Proof.
  revert seen st. induction stream as [|t r IH]; intros seen st; [reflexivity|].
  rewrite pump_state_cons, IH. reflexivity.
Qed.

Lemma pump_state_next_pid stream seen st :
  next_pid (pump_state stream callback buffer seen st) = next_pid st.
Proof.
  revert seen st. induction stream as [|t r IH]; intros seen st; [reflexivity|].
  rewrite pump_state_cons, IH. reflexivity.
Qed.

Lemma pump_state_clock stream seen st :
  clock (pump_state stream callback buffer seen st) = clock st.
Proof.
  revert seen st. induction stream as [|t r IH]; intros seen st; [reflexivity|].
  rewrite pump_state_cons, IH. reflexivity.
Qed.

Lemma pump_state_os_exec stream seen st :
  os_exec (pump_state stream callback buffer seen st) = os_exec st.
Proof.
  revert seen st. induction stream as [|t r IH]; intros seen st; [reflexivity|].
  rewrite pump_state_cons, IH. reflexivity.
Qed.

Lemma pump_state_trace stream seen st :
  trace (pump_state stream callback buffer seen st) =
  pump_events stream callback buffer seen ++ trace st.
Proof.
  revert seen st. induction stream as [|t r IH]; intros seen st; [reflexivity|].
  rewrite pump_state_cons, IH. simpl. now rewrite <- app_assoc.
Qed.

(** Every chunk of the stream ends up in the buffer, in order. *)
Lemma pump_state_value stream seen st :
  getvalue buffer (pump_state stream callback buffer seen st) =
  (getvalue buffer st +:+ text_of stream)%string.
Proof.
  revert seen st. induction stream as [|t r IH]; intros seen st.
  - simpl. now rewrite append_nil_r.
  - rewrite pump_state_cons, IH. simpl.
    unfold getvalue at 1. simpl. rewrite lookup_insert_eq. simpl.
    now rewrite append_assoc.
Qed.

(** No other buffer is touched. *)
Lemma pump_state_other stream seen st r :
  r ≠ buffer ->
  getvalue r (pump_state stream callback buffer seen st) = getvalue r st.
Proof.
  intros Hne. revert seen st. induction stream as [|t s IH]; intros seen st.
  - reflexivity.
  - rewrite pump_state_cons, IH. unfold getvalue. simpl.
    now rewrite lookup_insert_ne by congruence.
Qed.
End PumpFrame.

(** ** A weakest-precondition calculus for coroutines *)

Lemma wp_ret {A} (a : A) st Q : Q (Return a) st -> wp (ret a) st Q.
Proof. exact id. Qed.

Lemma wp_raise {A} e st (Q : outcome A -> state -> Prop) :
  Q (Raise e) st -> wp (raise e) st Q.
Proof. exact id. Qed.

Lemma wp_hang {A} st (Q : outcome A -> state -> Prop) : Q Hang st -> wp hang st Q.
Proof. exact id. Qed.

Lemma wp_gets {A} (f : state -> A) st Q : Q (Return (f st)) st -> wp (gets f) st Q.
Proof. exact id. Qed.

Lemma wp_modify f st Q : Q (Return tt) (f st) -> wp (modify f) st Q.
Proof. exact id. Qed.

Lemma wp_bind {A B} (m : M A) (k : A -> M B) st Q :
  wp m st (fun r st' =>
    match r with
    | Return a => wp (k a) st' Q
    | Raise e => Q (Raise e) st'
    | Hang => Q Hang st'
    end) ->
  wp (bind m k) st Q.
Proof. unfold wp, bind. destruct (m st) as [[a|e|] st']; exact id. Qed.

Lemma wp_try_except {A} (m : M A) (h : exn -> M A) st Q :
  wp m st (fun r st' =>
    match r with
    | Raise e => wp (h e) st' Q
    | _ => Q r st'
    end) ->
  wp (try_except m h) st Q.
Proof. unfold wp, try_except. destruct (m st) as [[a|e|] st']; exact id. Qed.

Lemma wp_try_finally {A} (m : M A) (fin : M unit) st Q :
  wp m st (fun r st' =>
    match r with
    | Return a => wp (_ <- fin ;; ret a) st' Q
    | Raise e => wp (_ <- fin ;; raise e) st' Q
    | Hang => Q Hang st'
    end) ->
  wp (try_finally m fin) st Q.
Proof. unfold wp, try_finally. destruct (m st) as [[a|e|] st']; exact id. Qed.

Lemma wp_create_task_group {A} pid children (body : M A) st Q :
  wp body st (fun r st' =>
    match r with
    | Return a => wp (join pid false children ;; ret a) st' Q
    | Raise e => wp (join pid true children ;; raise e) st' Q
    | Hang => wp (join pid false children ;; hang) st' Q
    end) ->
  wp (create_task_group pid children body) st Q.
Proof. unfold wp, create_task_group. destruct (body st) as [[a|e|] st']; exact id. Qed.

Lemma wp_fail_after {A} delay (body : option time -> M A) st Q :
  wp (body (Some (clock st + delay))) st Q -> wp (fail_after delay body) st Q.
Proof. exact id. Qed.

Lemma wp_StringIO st Q :
  Q (Return (next_ref st))
    (with_heap (<[next_ref st := ""%string]> (heap st)) (S (next_ref st)) st) ->
  wp StringIO st Q.
Proof. exact id. Qed.

Lemma wp_open_process command cwd_ kw g st Q :
  spawn_kwargs_ok kw = true ->
  os_exec st command cwd_ kw = Some g ->
  Q (Return (next_pid st))
    (log (EvSpawn (next_pid st) (clock st))
       (with_procs (<[next_pid st := new_process g kw (clock st)]> (procs st))
          (S (next_pid st)) st)) ->
  wp (open_process command cwd_ kw) st Q.
Proof. unfold wp, open_process. intros -> ->. exact id. Qed.

Lemma wp_send_signal pid sig p st Q :
  procs st !! pid = Some p ->
  Q (Return tt)
    (log (EvSignal pid sig (clock st))
       (with_procs (<[pid := deliver sig (clock st) p]> (procs st)) (next_pid st) st)) ->
  wp (send_signal pid sig) st Q.
Proof. unfold wp, send_signal. intros ->. exact id. Qed.

(** The three ways a wait ends. *)
Lemma wp_wait_exit pid deadline p t c st Q :
  procs st !! pid = Some p ->
  proc_exit p = Some (t, c) ->
  not_after (clock st `max` t) deadline = true ->
  Q (Return c) (with_clock (clock st `max` t) st) ->
  wp (Process_wait pid deadline) st Q.
Proof.
  unfold wp, Process_wait. intros -> -> Hd.
  destruct deadline as [d|]; simpl in *; [rewrite Hd|]; exact id.
Qed.

Lemma wp_wait_timeout pid d p st Q :
  procs st !! pid = Some p ->
  match proc_exit p with
  | Some (t, _) => not_after (clock st `max` t) (Some d) = false
  | None => True
  end ->
  Q (Raise TimeoutError) (with_clock (clock st `max` d) st) ->
  wp (Process_wait pid (Some d)) st Q.
Proof.
  unfold wp, Process_wait. intros -> Hd.
  destruct (proc_exit p) as [[t c]|]; simpl in *; [rewrite Hd|]; exact id.
Qed.

Lemma wp_wait_hang pid p st Q :
  procs st !! pid = Some p ->
  proc_exit p = None ->
  Q Hang st ->
  wp (Process_wait pid None) st Q.
Proof. unfold wp, Process_wait. intros -> ->. exact id. Qed.

Lemma wp_handle_stream stream callback buffer seen st Q :
  Q (Return tt) (pump_state stream callback buffer seen st) ->
  wp (_handle_stream stream callback buffer seen) st Q.
Proof. unfold wp. now rewrite handle_stream_returns. Qed.

Lemma wp_pump_drain pid upto t p st Q :
  procs st !! pid = Some p ->
  Q (Return tt)
    (pump_state (written (pt_stream t) p upto) (pt_callback t) (pt_buffer t) [] st) ->
  wp (pump_drain pid upto t) st Q.
Proof. unfold wp, pump_drain. intros ->. now rewrite handle_stream_returns. Qed.

Lemma wp_pump_finish_eof pid t p te st Q :
  procs st !! pid = Some p ->
  exit_time p = Some te ->
  Q (Return tt)
    (log (EvPump (pt_buffer t) EndOfStream) (with_clock (clock st `max` te) st)) ->
  wp (pump_finish pid false t) st Q.
Proof. unfold wp, pump_finish. intros -> ->. exact id. Qed.

Lemma wp_pump_finish_never pid t p st Q :
  procs st !! pid = Some p ->
  exit_time p = None ->
  Q Hang st ->
  wp (pump_finish pid false t) st Q.
Proof. unfold wp, pump_finish. intros -> ->. exact id. Qed.

(** Symbolic execution: [norm] reads fields through the state updates,
    [wp_step] applies the rule for the coroutine at the head of the goal. *)
Ltac norm :=
  cbn [self heap next_ref procs next_pid os_exec clock trace
       with_self with_heap with_procs with_clock log log_all
       cmd cwd stdout_callback stderr_callback timeout terminate_grace_period
       _stdout_history _stderr_history _process
       set_stdout_history set_stderr_history set_process
       pt_stream pt_callback pt_buffer].

Ltac wp_step :=
  cbv beta iota;
  lazymatch goal with
  | |- wp (bind _ _) _ _ => apply wp_bind
  | |- wp (ret _) _ _ => apply wp_ret
  | |- wp (raise _) _ _ => apply wp_raise
  | |- wp hang _ _ => apply wp_hang
  | |- wp (gets _) _ _ => apply wp_gets
  | |- wp (modify _) _ _ => apply wp_modify
  | |- wp (try_except _ _) _ _ => apply wp_try_except
  | |- wp (try_finally _ _) _ _ => apply wp_try_finally
  | |- wp (create_task_group _ _ _) _ _ => apply wp_create_task_group
  | |- wp (fail_after _ _) _ _ => apply wp_fail_after
  | |- wp StringIO _ _ => apply wp_StringIO
  | |- wp (async_with_process _ _) _ _ => unfold async_with_process
  | |- wp (Process_aclose _) _ _ => unfold Process_aclose
  | |- wp (Process_terminate _) _ _ => unfold Process_terminate
  | |- wp (Process_kill _) _ _ => unfold Process_kill
  | |- wp (for_each _ _) _ _ => cbn [for_each app]
  | |- wp (_handle_stream _ _ _ _) _ _ => apply wp_handle_stream
  end; norm.

(** ** Processes and signals *)

Lemma alive_exit p t c now :
  proc_exit p = Some (t, c) -> alive p now = (now <? t).
Proof. unfold alive. now intros ->. Qed.

Lemma alive_never p now : proc_exit p = None -> alive p now = true.
Proof. unfold alive. now intros ->. Qed.


(** The kill signal leaves no process alive. *)
Lemma deliver_kill_gone now p : alive (deliver SIGKILL now p) now = false.
Proof.
  unfold deliver. destruct (alive p now) eqn:E; [|exact E].
  unfold alive. simpl. apply Nat.ltb_irrefl.
Qed.

(** A signal never makes a process live longer. *)
Lemma deliver_alive_mono sig now p t :
  alive (deliver sig now p) t = true -> alive p t = true.
Proof.
  unfold deliver. destruct (alive p now) eqn:E; [|exact id].
  destruct sig.
  - destruct (prog_sigterm (proc_prog p)) as [[d c]|]; [|exact id].
    destruct (alive p (now + d)) eqn:E2; [|exact id].
    unfold alive in *. simpl. destruct (proc_exit p) as [[te ce]|]; [|reflexivity].
    rewrite !Nat.ltb_lt in *. lia.
  - unfold alive in *. simpl. destruct (proc_exit p) as [[te ce]|]; [|reflexivity].
    rewrite !Nat.ltb_lt in *. lia.
Qed.

(** ** terminate() *)

(** The rule for [terminate] when the instance holds a process: the state
    afterwards differs in that process, the clock and the trace only. *)
Lemma wp_terminate pid p st Q :
  _process (self st) = Some pid ->
  procs st !! pid = Some p ->
  (forall st',
      self st' = self st -> heap st' = heap st -> next_ref st' = next_ref st ->
      next_pid st' = next_pid st -> os_exec st' = os_exec st ->
      procs st' =
        <[pid := terminate_process (clock st) (terminate_grace_period (self st)) p]>
          (procs st) ->
      clock st' = terminate_end (clock st) (terminate_grace_period (self st)) p ->
      trace st' =
        terminate_events pid (clock st) (terminate_grace_period (self st)) p
        ++ trace st ->
      Q (Return tt) st') ->
  wp terminate st Q.
Proof.
  intros Hself Hp HQ. unfold terminate.
  wp_step. wp_step. rewrite Hself. wp_step.
  eapply wp_send_signal; [exact Hp|]. repeat wp_step.
  set (now := clock st) in *. set (grace := terminate_grace_period (self st)) in *.
  set (p1 := deliver SIGTERM now p).
  destruct (alive p1 (now + grace)) eqn:Ealive.
  - (* still alive when the grace period is over: forced kill *)
    eapply wp_wait_timeout; norm; [apply lookup_insert_eq| |].
    { destruct (proc_exit p1) as [[t c]|] eqn:Ex; [|exact I].
      rewrite (alive_exit _ _ _ _ Ex) in Ealive. apply Nat.ltb_lt in Ealive.
      fold now. simpl. apply Nat.leb_gt. lia. }
    wp_step. eapply wp_send_signal; norm; [apply lookup_insert_eq|]. norm.
    fold now. replace (now `max` (now + grace)) with (now + grace) by lia.
    apply HQ; norm; try reflexivity.
    + unfold terminate_process, escalates. fold p1. rewrite Ealive.
      now rewrite insert_insert_eq.
    + unfold terminate_end, escalates. fold p1. now rewrite Ealive.
    + unfold terminate_events, escalates. fold p1. now rewrite Ealive.
  - (* gone within the grace period: no kill *)
    destruct (proc_exit p1) as [[t c]|] eqn:Ex;
      [|now rewrite (alive_never _ _ Ex) in Ealive].
    rewrite (alive_exit _ _ _ _ Ex) in Ealive. apply Nat.ltb_ge in Ealive.
    eapply wp_wait_exit; norm; [apply lookup_insert_eq|exact Ex| |].
    { fold now. simpl. apply Nat.leb_le. lia. }
    repeat wp_step. fold now.
    apply HQ; norm; try reflexivity.
    + unfold terminate_process, escalates. fold p1.
      now rewrite (alive_exit _ _ _ _ Ex), (proj2 (Nat.ltb_ge _ _) Ealive).
    + unfold terminate_end, escalates, exit_time. fold p1.
      now rewrite (alive_exit _ _ _ _ Ex), (proj2 (Nat.ltb_ge _ _) Ealive), Ex.
    + unfold terminate_events, escalates. fold p1.
      now rewrite (alive_exit _ _ _ _ Ex), (proj2 (Nat.ltb_ge _ _) Ealive).
Qed.

(** ** Joining the pumps *)

(** The children read their streams: each buffer gains the text meant for
    it, the trace gains the callback events. *)
Lemma wp_drain pid upto p children st Q :
  procs st !! pid = Some p ->
  (forall st',
      self st' = self st -> procs st' = procs st -> next_pid st' = next_pid st ->
      os_exec st' = os_exec st -> clock st' = clock st ->
      (forall r, getvalue r st' = (getvalue r st +:+ drained_text p upto children r)%string) ->
      trace st' = drain_events p upto children ++ trace st ->
      Q (Return tt) st') ->
  wp (for_each (pump_drain pid upto) children) st Q.
Proof.
  revert st Q. induction children as [|t rest IH]; intros st Q Hp HQ.
  - apply wp_ret. apply HQ; try reflexivity.
    intros r. simpl. now rewrite append_nil_r.
  - cbn [for_each]. apply wp_bind. eapply wp_pump_drain; [exact Hp|].
    cbv beta iota.
    set (st1 := pump_state _ _ _ _ st).
    apply IH; [unfold st1; now rewrite pump_state_procs|].
    intros st' Hself Hprocs Hnp Hos Hclock Hval Htrace.
    apply HQ.
    + rewrite Hself. apply pump_state_self.
    + rewrite Hprocs. apply pump_state_procs.
    + rewrite Hnp. apply pump_state_next_pid.
    + rewrite Hos. apply pump_state_os_exec.
    + rewrite Hclock. apply pump_state_clock.
    + intros r. rewrite Hval. simpl. unfold st1.
      destruct (Nat.eqb_spec (pt_buffer t) r) as [<-|Hne].
      * now rewrite pump_state_value, append_assoc.
      * rewrite pump_state_other by congruence. reflexivity.
    + rewrite Htrace. unfold st1. rewrite pump_state_trace. simpl.
      now rewrite app_assoc.
Qed.

(** With a process that exits, every child ends with its stream. *)
Lemma wp_finish_eof pid p te children st Q :
  procs st !! pid = Some p ->
  exit_time p = Some te ->
  (forall st',
      self st' = self st -> procs st' = procs st -> next_pid st' = next_pid st ->
      os_exec st' = os_exec st -> heap st' = heap st ->
      clock st <= clock st' <= clock st `max` te ->
      trace st' = finish_events children ++ trace st ->
      Q (Return tt) st') ->
  wp (for_each (pump_finish pid false) children) st Q.
Proof.
  intros Hp Hte. revert st Q Hp.
  induction children as [|t rest IH]; intros st Q Hp HQ.
  - apply wp_ret. apply HQ; try reflexivity. lia.
  - cbn [for_each]. apply wp_bind.
    eapply wp_pump_finish_eof; [exact Hp|exact Hte|]. cbv beta iota.
    apply IH; [exact Hp|].
    intros st' Hself Hprocs Hnp Hos Hheap Hclock Htrace.
    apply HQ; try assumption.
    + revert Hclock. norm. lia.
    + rewrite Htrace. norm. simpl. now rewrite <- app_assoc.
Qed.

(** Left alone, with a process that exits, the children read everything it
    wrote and end with their streams. *)
Lemma wp_join_eof pid p te children st Q :
  procs st !! pid = Some p ->
  exit_time p = Some te ->
  (forall st',
      self st' = self st -> procs st' = procs st -> next_pid st' = next_pid st ->
      os_exec st' = os_exec st ->
      clock st <= clock st' <= clock st `max` te ->
      (forall r, getvalue r st' = (getvalue r st +:+ drained_text p None children r)%string) ->
      trace st' = finish_events children ++ drain_events p None children ++ trace st ->
      Q (Return tt) st') ->
  wp (join pid false children) st Q.
Proof.
  intros Hp Hte HQ. unfold join. repeat wp_step.
  eapply wp_drain; [exact Hp|].
  intros st1 Hself1 Hprocs1 Hnp1 Hos1 Hclock1 Hval1 Htrace1.
  eapply wp_finish_eof; [rewrite Hprocs1; exact Hp|exact Hte|].
  intros st2 Hself2 Hprocs2 Hnp2 Hos2 Hheap2 Hclock2 Htrace2.
  apply HQ; try congruence.
  intros r. unfold getvalue at 1. rewrite Hheap2. apply Hval1.
Qed.

(** ** run() *)

Lemma drained_text_stdout st p :
  drained_text p None (run_pumps st p) (next_ref st) = captured Stdout p.
Proof.
  unfold run_pumps, captured, piped.
  destruct (proc_stdout_piped p), (proc_stderr_piped p);
    cbn [drained_text app pt_buffer pt_stream];
    rewrite ?Nat.eqb_refl,
      ?(proj2 (Nat.eqb_neq (S (next_ref st)) (next_ref st))) by lia;
    now rewrite ?append_nil_r.
Qed.

Lemma drained_text_stderr st p :
  drained_text p None (run_pumps st p) (S (next_ref st)) = captured Stderr p.
Proof.
  unfold run_pumps, captured, piped.
  destruct (proc_stdout_piped p), (proc_stderr_piped p);
    cbn [drained_text app pt_buffer pt_stream];
    rewrite ?Nat.eqb_refl,
      ?(proj2 (Nat.eqb_neq (next_ref st) (S (next_ref st)))) by lia;
    now rewrite ?append_nil_r.
Qed.

Lemma returncode_gone pid p t c st :
  procs st !! pid = Some p -> proc_exit p = Some (t, c) -> t <= clock st ->
  returncode pid st = Some c.
Proof.
  intros Hp Hx Ht. unfold returncode. rewrite Hp, (alive_exit _ _ _ _ Hx).
  rewrite (proj2 (Nat.ltb_ge _ _) Ht), Hx. reflexivity.
Qed.

Lemma new_process_exit g kw now t c :
  prog_exit g = Some (t, c) ->
  proc_exit (new_process g kw now) = Some (now + t, c).
Proof. unfold new_process. simpl. now intros ->. Qed.

(** The process exits on its own, in time: the run returns. *)
Lemma run_exits kw st g t c :
  spawn_kwargs_ok kw = true ->
  os_exec st (cmd (self st)) (cwd (self st)) kw = Some g ->
  prog_exit g = Some (t, c) ->
  not_after t (timeout (self st)) = true ->
  let p := new_process g kw (clock st) in
  wp (run kw) st (fun r st' =>
    r = Return (Some c, captured Stdout p, captured Stderr p)
    /\ stdout st' = captured Stdout p
    /\ stderr st' = captured Stderr p
    /\ _process (self st') = None
    /\ procs st' !! next_pid st = Some p
    /\ trace st' = run_events st p [] ++ trace st).
Proof.
  intros Hkw Hos Hexit Hin. cbv zeta.
  pose proof (new_process_exit g kw (clock st) t c Hexit) as Hpx.
  remember (new_process g kw (clock st)) as p eqn:Ep.
  unfold run. repeat wp_step.
  eapply wp_open_process; [exact Hkw|exact Hos|]. norm. rewrite <- Ep.
  repeat wp_step. rewrite lookup_insert_eq. cbn [from_option].
  change ((if proc_stdout_piped p then _ else _) ++ _) with (run_pumps st p).
  repeat wp_step.
  assert (Hwait : forall Q' st0,
    procs st0 !! next_pid st = Some p -> clock st0 = clock st ->
    Q' (Return c) (with_clock (clock st + t) st0) ->
    wp (match timeout (self st) with
        | Some t0 => fail_after t0 (Process_wait (next_pid st))
        | None => Process_wait (next_pid st) None
        end) st0 Q').
  { intros Q' st0 Hp0 Hc0 HQ'.
    destruct (timeout (self st)) as [t0|]; simpl in Hin.
    - apply wp_fail_after. eapply wp_wait_exit; [exact Hp0|exact Hpx| |].
      + rewrite Hc0. simpl. apply Nat.leb_le. apply Nat.leb_le in Hin. lia.
      + rewrite Hc0. now replace (clock st `max` (clock st + t)) with (clock st + t) by lia.
    - eapply wp_wait_exit; [exact Hp0|exact Hpx|reflexivity|].
      rewrite Hc0. now replace (clock st `max` (clock st + t)) with (clock st + t) by lia. }
  apply Hwait; norm; [apply lookup_insert_eq|reflexivity|].
  repeat wp_step.
  eapply wp_join_eof with (p := p) (te := clock st + t);
    [norm; apply lookup_insert_eq|unfold exit_time; now rewrite Hpx|].
  norm. intros st1 Hself Hprocs Hnp Hos1 Hclock Hval Htrace.
  assert (Hp1 : procs st1 !! next_pid st = Some p)
    by (rewrite Hprocs; apply lookup_insert_eq).
  assert (Hc1 : clock st1 = clock st + t) by lia.
  repeat wp_step.
  eapply wp_wait_exit; [exact Hp1|exact Hpx|reflexivity|].
  repeat wp_step.
  rewrite (returncode_gone _ _ _ _ _ Hp1 Hpx) by lia.
  assert (Hout : stdout st1 = captured Stdout p).
  { unfold stdout. rewrite Hself. norm. rewrite Hval, drained_text_stdout.
    unfold getvalue. norm.
    rewrite lookup_insert_ne by lia. now rewrite lookup_insert_eq. }
  assert (Herr : stderr st1 = captured Stderr p).
  { unfold stderr. rewrite Hself. norm. rewrite Hval, drained_text_stderr.
    unfold getvalue. norm. now rewrite lookup_insert_eq. }
  rewrite Hout, Herr.
  repeat split; try reflexivity.
  - unfold stdout, getvalue. norm. rewrite Hself. norm.
    unfold stdout, getvalue in Hout. rewrite Hself in Hout. exact Hout.
  - unfold stderr, getvalue. norm. rewrite Hself. norm.
    unfold stderr, getvalue in Herr. rewrite Hself in Herr. exact Herr.
  - norm. exact Hp1.
  - norm. rewrite Htrace. unfold run_events. norm. simpl.
    now rewrite <- !app_assoc.
Qed.

Lemma deliver_piped sig now p s : piped s (deliver sig now p) = piped s p.
Proof.
  unfold deliver. destruct (alive p now); [|reflexivity].
  destruct sig; [|now destruct s].
  destruct (prog_sigterm (proc_prog p)) as [[d c]|]; [|reflexivity].
  destruct (alive p (now + d)); [now destruct s|reflexivity].
Qed.

Lemma terminate_process_piped now grace p s :
  piped s (terminate_process now grace p) = piped s p.
Proof.
  unfold terminate_process. destruct (escalates now grace p);
    now rewrite ?deliver_piped.
Qed.

Lemma run_pumps_terminate_process st now grace p :
  run_pumps st (terminate_process now grace p) = run_pumps st p.
Proof.
  unfold run_pumps.
  change (proc_stdout_piped ?q) with (piped Stdout q).
  change (proc_stderr_piped ?q) with (piped Stderr q).
  now rewrite !terminate_process_piped.
Qed.

(** After the two stages the process is gone. *)
Lemma terminate_process_exit now grace p :
  exists te c,
    proc_exit (terminate_process now grace p) = Some (te, c)
    /\ te <= terminate_end now grace p.
Proof.
  unfold terminate_process, terminate_end, escalates.
  set (p1 := deliver SIGTERM now p).
  destruct (alive p1 (now + grace)) eqn:E.
  - exists (now + grace), (-9)%Z. unfold deliver. rewrite E. simpl. auto.
  - destruct (proc_exit p1) as [[te c]|] eqn:Ex;
      [|now rewrite (alive_never _ _ Ex) in E].
    exists te, c. unfold exit_time. rewrite Ex. simpl. split; [reflexivity|lia].
Qed.

(** The process outlives the timeout: two-stage termination, the pumps read
    on to the end of their streams, then the timeout error. *)
Lemma run_times_out kw st g T :
  spawn_kwargs_ok kw = true ->
  os_exec st (cmd (self st)) (cwd (self st)) kw = Some g ->
  timeout (self st) = Some T ->
  exits_within g (Some T) = false ->
  let p0 := new_process g kw (clock st) in
  let grace := terminate_grace_period (self st) in
  let p := terminate_process (clock st + T) grace p0 in
  wp (run kw) st (fun r st' =>
    r = Raise ProcessTimeoutError
    /\ stdout st' = captured Stdout p
    /\ stderr st' = captured Stderr p
    /\ _process (self st') = None
    /\ procs st' !! next_pid st = Some p
    /\ alive p (clock st') = false
    /\ trace st' =
         run_events st p (terminate_events (next_pid st) (clock st + T) grace p0)
         ++ trace st
    /\ _stdout_history (self st') = next_ref st
    /\ _stderr_history (self st') = S (next_ref st)).
Proof.
  intros Hkw Hos HT Hlate. cbv zeta.
  remember (new_process g kw (clock st)) as p0 eqn:Ep0.
  remember (terminate_process (clock st + T) (terminate_grace_period (self st)) p0)
    as p eqn:Ep.
  destruct (terminate_process_exit (clock st + T) (terminate_grace_period (self st)) p0)
    as (te & ce & Hpx & Hte). rewrite <- Ep in Hpx.
  unfold run. repeat wp_step.
  eapply wp_open_process; [exact Hkw|exact Hos|]. norm. rewrite <- Ep0.
  repeat wp_step. rewrite lookup_insert_eq. cbn [from_option].
  change ((if proc_stdout_piped p0 then _ else _) ++ _) with (run_pumps st p0).
  rewrite HT. repeat wp_step.
  eapply wp_wait_timeout; norm; [apply lookup_insert_eq| |].
  { unfold exits_within in Hlate. rewrite Ep0. unfold new_process. simpl.
    destruct (prog_exit g) as [[t c]|]; [|exact I]. simpl in *.
    apply Nat.leb_gt in Hlate. apply Nat.leb_gt. lia. }
  replace (clock st `max` (clock st + T)) with (clock st + T) by lia.
  repeat wp_step.
  eapply wp_terminate with (pid := next_pid st) (p := p0);
    norm; [reflexivity|apply lookup_insert_eq|].
  rewrite <- Ep. rewrite insert_insert_eq.
  intros st1 Hself1 Hheap1 Hnr1 Hnp1 Hos1 Hprocs1 Hclock1 Htrace1.
  repeat wp_step.
  eapply wp_join_eof with (p := p) (te := te);
    [rewrite Hprocs1; apply lookup_insert_eq|unfold exit_time; now rewrite Hpx|].
  intros st2 Hself2 Hprocs2 Hnp2 Hos2 Hclock2 Hval2 Htrace2.
  assert (Hp2 : procs st2 !! next_pid st = Some p)
    by (rewrite Hprocs2, Hprocs1; apply lookup_insert_eq).
  assert (Hc2 : te <= clock st2) by lia.
  repeat wp_step.
  eapply wp_wait_exit; [exact Hp2|exact Hpx|reflexivity|].
  repeat wp_step.
  assert (Hroot : forall r, r = next_ref st \/ r = S (next_ref st) ->
                            getvalue r st1 = ""%string).
  { intros r Hr. unfold getvalue. rewrite Hheap1. norm.
    destruct Hr as [-> | ->].
    - rewrite lookup_insert_ne by lia. now rewrite lookup_insert_eq.
    - now rewrite lookup_insert_eq. }
  rewrite <- (run_pumps_terminate_process st (clock st + T)
                (terminate_grace_period (self st)) p0), <- Ep in Hval2, Htrace2.
  repeat split.
  - unfold stdout, getvalue. norm. rewrite Hself2, Hself1. norm.
    fold (getvalue (next_ref st) st2).
    rewrite Hval2, drained_text_stdout, Hroot by auto. reflexivity.
  - unfold stderr, getvalue. norm. rewrite Hself2, Hself1. norm.
    fold (getvalue (S (next_ref st)) st2).
    rewrite Hval2, drained_text_stderr, Hroot by auto. reflexivity.
  - norm. exact Hp2.
  - norm. rewrite (alive_exit _ _ _ _ Hpx). apply Nat.ltb_ge. lia.
  - norm. rewrite Htrace2, Htrace1. unfold run_events. norm.
    rewrite <- !app_assoc. reflexivity.
  - norm. rewrite Hself2, Hself1. reflexivity.
  - norm. rewrite Hself2, Hself1. reflexivity.
Qed.

Lemma wp_open_process_type_error command cwd_ kw st Q :
  spawn_kwargs_ok kw = false ->
  Q (Raise TypeError) st ->
  wp (open_process command cwd_ kw) st Q.
Proof. unfold wp, open_process. intros ->. exact id. Qed.

Lemma wp_open_process_refused command cwd_ kw st Q :
  spawn_kwargs_ok kw = true ->
  os_exec st command cwd_ kw = None ->
  Q (Raise OSError) st ->
  wp (open_process command cwd_ kw) st Q.
Proof. unfold wp, open_process. intros -> ->. exact id. Qed.

Lemma no_process_state_stdout st : stdout (no_process_state st) = ""%string.
Proof.
  unfold stdout, getvalue, no_process_state, clear_history, bind, StringIO, modify.
  simpl. rewrite lookup_insert_ne by lia. now rewrite lookup_insert_eq.
Qed.

Lemma no_process_state_stderr st : stderr (no_process_state st) = ""%string.
Proof.
  unfold stderr, getvalue, no_process_state, clear_history, bind, StringIO, modify.
  simpl. now rewrite lookup_insert_eq.
Qed.

(** A keyword [open_process] does not take: the call itself fails. *)
Lemma run_bad_keyword kw st :
  spawn_kwargs_ok kw = false ->
  run kw st = (Raise TypeError, no_process_state st).
Proof.
  intros Hkw.
  enough (wp (run kw) st (fun r st' => r = Raise TypeError /\ st' = no_process_state st))
    as [H1 H2] by (now rewrite (surjective_pairing (run kw st)), H1, H2).
  unfold run. repeat wp_step.
  apply wp_open_process_type_error; [exact Hkw|].
  repeat wp_step. split; reflexivity.
Qed.

(** The operating system refuses to start the program. *)
Lemma run_spawn_refused kw st :
  spawn_kwargs_ok kw = true ->
  os_exec st (cmd (self st)) (cwd (self st)) kw = None ->
  run kw st = (Raise OSError, no_process_state st).
Proof.
  intros Hkw Hos.
  enough (wp (run kw) st (fun r st' => r = Raise OSError /\ st' = no_process_state st))
    as [H1 H2] by (now rewrite (surjective_pairing (run kw st)), H1, H2).
  unfold run. repeat wp_step.
  apply wp_open_process_refused; [exact Hkw|exact Hos|].
  repeat wp_step. split; reflexivity.
Qed.

Lemma wp_finish_never pid p children st Q :
  procs st !! pid = Some p ->
  exit_time p = None ->
  Q (match children with [] => Return tt | _ => Hang end) st ->
  wp (for_each (pump_finish pid false) children) st Q.
Proof.
  intros Hp Hx HQ. destruct children as [|t rest].
  - apply wp_ret. exact HQ.
  - cbn [for_each]. apply wp_bind.
    eapply wp_pump_finish_never; [exact Hp|exact Hx|exact HQ].
Qed.

(** No timeout and a program that never exits: the run never returns, while
    the pumps keep reading what the program writes. *)
Lemma run_hangs kw st g :
  spawn_kwargs_ok kw = true ->
  os_exec st (cmd (self st)) (cwd (self st)) kw = Some g ->
  timeout (self st) = None ->
  prog_exit g = None ->
  let p := new_process g kw (clock st) in
  wp (run kw) st (fun r st' =>
    r = Hang
    /\ stdout st' = captured Stdout p
    /\ stderr st' = captured Stderr p).
Proof.
  intros Hkw Hos HT Hexit. cbv zeta.
  remember (new_process g kw (clock st)) as p eqn:Ep.
  assert (Hpx : proc_exit p = None)
    by (rewrite Ep; unfold new_process; simpl; now rewrite Hexit).
  unfold run. repeat wp_step.
  eapply wp_open_process; [exact Hkw|exact Hos|]. norm. rewrite <- Ep.
  repeat wp_step. rewrite lookup_insert_eq. cbn [from_option].
  change ((if proc_stdout_piped p then _ else _) ++ _) with (run_pumps st p).
  rewrite HT. repeat wp_step.
  eapply wp_wait_hang; norm; [apply lookup_insert_eq|exact Hpx|].
  repeat wp_step. unfold join. repeat wp_step.
  eapply wp_drain with (p := p); norm; [apply lookup_insert_eq|].
  intros st1 Hself Hprocs Hnp Hos1 Hclock Hval Htrace.
  eapply wp_finish_never with (p := p);
    [rewrite Hprocs; apply lookup_insert_eq|unfold exit_time; now rewrite Hpx|].
  assert (Hout : stdout st1 = captured Stdout p).
  { unfold stdout. rewrite Hself. norm. rewrite Hval, drained_text_stdout.
    unfold getvalue. norm.
    rewrite lookup_insert_ne by lia. now rewrite lookup_insert_eq. }
  assert (Herr : stderr st1 = captured Stderr p).
  { unfold stderr. rewrite Hself. norm. rewrite Hval, drained_text_stderr.
    unfold getvalue. norm. now rewrite lookup_insert_eq. }
  destruct (run_pumps st p); repeat wp_step; auto.
Qed.

(** ** What a run shows to its caller *)

(** Whatever the keywords and the state, the caller sees what the summary
    says: one case per way [run] can go. *)
Theorem run_observed kw st : observed kw st = run_summary kw st.
Proof.
  unfold observed, run_summary.
  destruct (spawn_kwargs_ok kw) eqn:Hkw;
    [|rewrite (run_bad_keyword _ _ Hkw); simpl;
      now rewrite no_process_state_stdout, no_process_state_stderr].
  destruct (os_exec st (cmd (self st)) (cwd (self st)) kw) as [g|] eqn:Hos;
    [|rewrite (run_spawn_refused _ _ Hkw Hos); simpl;
      now rewrite no_process_state_stdout, no_process_state_stderr].
  destruct (exits_within g (timeout (self st))) eqn:Hin.
  - unfold exits_within in Hin.
    destruct (prog_exit g) as [[t c]|] eqn:Hexit; [|discriminate].
    destruct (run_exits kw st g t c Hkw Hos Hexit Hin) as (-> & -> & -> & _).
    reflexivity.
  - destruct (timeout (self st)) as [T|] eqn:HT.
    + destruct (run_times_out kw st g T Hkw Hos HT Hin) as (-> & -> & -> & _).
      reflexivity.
    + unfold exits_within in Hin.
      destruct (prog_exit g) as [[t c]|] eqn:Hexit; [discriminate|].
      destruct (run_hangs kw st g Hkw Hos HT Hexit) as (-> & -> & ->).
      reflexivity.
Qed.

(** The callbacks play no part in the summary. *)
Lemma run_summary_callbacks kw st out err :
  run_summary kw (with_self (set_callbacks out err) st) = run_summary kw st.
Proof. reflexivity. Qed.

(** ** The program's output *)



(** ** C1: what a completed run returns *)




(** ** Events of a run *)











(** ** The timeout path *)


(** ** C2: when run() raises the timeout error *)



(** ** C3: the pumps after a timeout *)




(** ** C4: callbacks that raise *)

(** C4.  In the pump, whatever the callback does with a chunk (return or
    raise), the chunk is written to the buffer and the loop goes on with the
    rest of the stream; the pump returns normally with every chunk of the
    stream appended, in order.  A run with any callbacks has the same outcome
    and the same stdout and stderr texts as the same run with no callbacks,
    and an exception of user code never comes out of [run]. *)
Theorem callbacks_never_affect_capture :
  (forall text rest callback buffer seen st,
      _handle_stream (text :: rest) callback buffer seen st =
      _handle_stream rest callback buffer (text :: seen)
        (write_state buffer text
           (log_all (callback_event callback buffer seen text) st)))
  /\ (forall stream callback buffer seen st,
        fst (_handle_stream stream callback buffer seen st) = Return tt
        /\ getvalue buffer (snd (_handle_stream stream callback buffer seen st))
           = (getvalue buffer st +:+ text_of stream)%string)
  /\ (forall kw st out err,
        observed kw (with_self (set_callbacks out err) st)
        = observed kw (with_self (set_callbacks None None) st))
  /\ (forall kw st msg, fst (run kw st) <> Raise (UserError msg)).
Proof.
  split; [exact handle_stream_step|]. split; [|split].
  - intros stream callback buffer seen st.
    rewrite handle_stream_returns. split; [reflexivity|]. apply pump_state_value.
  - intros kw st out err.
    now rewrite !run_observed, !run_summary_callbacks.
  - intros kw st msg Hr.
    pose proof (run_observed kw st) as Hobs. unfold observed, run_summary in Hobs.
    rewrite Hr in Hobs.
    destruct (spawn_kwargs_ok kw); [|discriminate].
    destruct (os_exec st (cmd (self st)) (cwd (self st)) kw) as [g|]; [|discriminate].
    destruct (exits_within g (timeout (self st))); [discriminate|].
    destruct (timeout (self st)); discriminate.
Qed.

(** [echo hello] with callbacks that raise on every chunk, against the same
    run with no callbacks. *)
Lemma callbacks_never_affect_capture_witness :
  observed ∅ (with_self (set_callbacks (Some raising) (Some raising)) st_hello)
  = observed ∅ (with_self (set_callbacks None None) st_hello).
Proof.
  apply (proj1 (proj2 (proj2 callbacks_never_affect_capture))).
Defined.

(** ** C5: the order of the termination sequence *)



(** ** The [finally] clause of run() *)

(** Whatever happens between the [try] and the [finally], a run that comes to
    an end has cleared [self._process]. *)
Lemma run_clears_process kw st :
  fst (run kw st) <> Hang -> _process (self (snd (run kw st))) = None.
Proof.
  change (wp (run kw) st (fun r st' => r <> Hang -> _process (self st') = None)).
  unfold run. do 8 wp_step. apply wp_try_finally.
  unfold wp at 1.
  match goal with |- context [fst (?m ?s)] => destruct (m s) as [[a|e|] st1] end;
    cbn [fst snd]; repeat wp_step; congruence.
Qed.

(** [terminate] is its part before the wait followed by its part from the
    wait on. *)
Lemma terminate_split st :
  terminate st = (terminate_until_wait ;; terminate_from_wait) st.
Proof.
  unfold terminate, terminate_until_wait, terminate_from_wait, bind, gets.
  destruct (_process (self st)) as [pid|] eqn:Hself.
  - unfold Process_terminate, send_signal.
    destruct (procs st !! pid); [|reflexivity].
    cbn [self log with_procs]. now rewrite Hself.
  - unfold ret. now rewrite Hself.
Qed.



(** ** C6: is terminate() idempotent? *)




(** ** C7: the process cannot be started *)

(** C7.  If the operating system cannot create the process, [run] raises the
    spawn error at once: nothing is returned, no event is logged (no callback
    ran, no process exists), both accessors read as empty strings, and the
    instance holds no process. *)
Theorem run_spawn_failure kw st :
  spawn_kwargs_ok kw = true ->
  os_exec st (cmd (self st)) (cwd (self st)) kw = None ->
  let st' := snd (run kw st) in
  fst (run kw st) = Raise OSError
  /\ trace st' = trace st
  /\ procs st' = procs st
  /\ clock st' = clock st
  /\ stdout st' = ""%string
  /\ stderr st' = ""%string
  /\ is_running st' = false.
Proof.
  intros Hkw Hos. cbv zeta. rewrite (run_spawn_refused kw st Hkw Hos).
  cbn [fst snd].
  rewrite no_process_state_stdout, no_process_state_stderr.
  repeat split; reflexivity.
Qed.

(** A command the system does not have, run with raising callbacks. *)
Lemma run_spawn_failure_witness :
  spawn_kwargs_ok ∅ = true
  /\ os_exec st_missing (cmd (self st_missing)) (cwd (self st_missing)) ∅ = None
  /\ fst (run ∅ st_missing) = Raise OSError
  /\ trace (snd (run ∅ st_missing)) = trace st_missing
  /\ stdout (snd (run ∅ st_missing)) = ""%string
  /\ stderr (snd (run ∅ st_missing)) = ""%string.
Proof.
  assert (H1 : spawn_kwargs_ok ∅ = true) by (vm_compute; reflexivity).
  assert (H2 : os_exec st_missing (cmd (self st_missing)) (cwd (self st_missing)) ∅
               = None) by reflexivity.
  destruct (run_spawn_failure ∅ st_missing H1 H2) as (Hr & Ht & _ & _ & Ho & He & _).
  repeat (split; [assumption|]). exact He.
Defined.

(** ** C8: clear_history() *)

(** C8.  In every state, [clear_history] returns normally; afterwards both
    accessors read as empty strings, and nothing else has changed: not
    [is_running] nor any other field of the instance, no process, no existing
    buffer, not the clock, not the trace. *)
Theorem clear_history_frame st :
  let st' := snd (clear_history st) in
  fst (clear_history st) = Return tt
  /\ stdout st' = ""%string
  /\ stderr st' = ""%string
  /\ is_running st' = is_running st
  /\ _process (self st') = _process (self st)
  /\ cmd (self st') = cmd (self st)
  /\ cwd (self st') = cwd (self st)
  /\ stdout_callback (self st') = stdout_callback (self st)
  /\ stderr_callback (self st') = stderr_callback (self st)
  /\ timeout (self st') = timeout (self st)
  /\ terminate_grace_period (self st') = terminate_grace_period (self st)
  /\ procs st' = procs st
  /\ clock st' = clock st
  /\ trace st' = trace st
  /\ (forall r, r < next_ref st -> heap st' !! r = heap st !! r).
Proof.
  cbv zeta.
  change (wp clear_history st (fun r st' =>
    r = Return tt
    /\ stdout st' = ""%string
    /\ stderr st' = ""%string
    /\ is_running st' = is_running st
    /\ _process (self st') = _process (self st)
    /\ cmd (self st') = cmd (self st)
    /\ cwd (self st') = cwd (self st)
    /\ stdout_callback (self st') = stdout_callback (self st)
    /\ stderr_callback (self st') = stderr_callback (self st)
    /\ timeout (self st') = timeout (self st)
    /\ terminate_grace_period (self st') = terminate_grace_period (self st)
    /\ procs st' = procs st
    /\ clock st' = clock st
    /\ trace st' = trace st
    /\ (forall r, r < next_ref st -> heap st' !! r = heap st !! r))).
  unfold clear_history. repeat wp_step.
  split; [reflexivity|]. split; [|split].
  - unfold stdout, getvalue. norm.
    rewrite lookup_insert_ne by lia. now rewrite lookup_insert_eq.
  - unfold stderr, getvalue. norm. now rewrite lookup_insert_eq.
  - repeat (split; [reflexivity|]).
    intros r Hr. now rewrite !lookup_insert_ne by lia.
Qed.

(** In the middle of a run, with output captured so far: the accessors are
    emptied and [is_running] stays true. *)
Lemma clear_history_frame_witness :
  let st := snd (StringIO_write 2 "partial" st_running) in
  stdout st = "partial"%string
  /\ is_running st = true
  /\ stdout (snd (clear_history st)) = ""%string
  /\ is_running (snd (clear_history st)) = true.
Proof.
  cbv zeta.
  destruct (clear_history_frame (snd (StringIO_write 2 "partial" st_running)))
    as (_ & Ho & _ & Hrun & _).
  split; [vm_compute; reflexivity|]. split; [reflexivity|].
  split; [exact Ho|]. rewrite Hrun. reflexivity.
Defined.

(** ** C9: is_running around run() *)

(** C9.  A freshly constructed instance is not running, and after any call of
    [run] that comes to an end (by returning, by the timeout error, by a spawn
    error or by any other exception) the instance is not running. *)
Theorem run_leaves_no_process :
  (forall cmd_ cwd_ out err timeout_ grace os,
      is_running (__init__ cmd_ cwd_ out err timeout_ grace os) = false)
  /\ (forall kw st,
        fst (run kw st) <> Hang -> is_running (snd (run kw st)) = false).
Proof.
  split; [reflexivity|].
  intros kw st Hr. unfold is_running. now rewrite (run_clears_process kw st Hr).
Qed.

(** The three ways out of [run]: a normal return, the timeout error and a
    spawn error. *)
Lemma run_leaves_no_process_witness :
  is_running (snd (run ∅ st_hello)) = false
  /\ is_running (snd (run ∅ st_sleep)) = false
  /\ is_running (snd (run ∅ st_missing)) = false.
Proof.
  split; [|split]; apply (proj2 run_leaves_no_process); vm_compute; discriminate.
Defined.

(** ** C10: run_sync and keyword arguments *)

Lemma forallb_false_elem {A} (f : A -> bool) (l : list A) x :
  x ∈ l -> f x = false -> forallb f l = false.
Proof.
  intros Hx Hf. induction l as [|y l IH]; [now apply elem_of_nil in Hx|].
  simpl. apply elem_of_cons in Hx as [<-|Hx].
  - now rewrite Hf.
  - rewrite (IH Hx). apply andb_false_r.
Qed.

(** No keyword of [open_process] is a keyword of [anyio.run]. *)
Lemma spawn_keyword_not_run_keyword k :
  k ∈ open_process_keywords -> keyword_in anyio_run_keywords k = false.
Proof.
  unfold open_process_keywords. rewrite !elem_of_cons, elem_of_nil.
  intros H. repeat (destruct H as [->|H]; [reflexivity|]). destruct H.
Qed.

(** C10.  [run_sync] hands its keyword arguments to [anyio.run], not to
    [run]: called with any keyword of the process spawn it raises [TypeError]
    and changes nothing (no process is started, the buffers are not even
    reset); called with no keyword it is [run] called with no keyword. *)
Theorem run_sync_keywords_go_to_anyio_run :
  (forall kw st k,
      k ∈ open_process_keywords -> is_Some (kw !! k) ->
      run_sync kw st = (Raise TypeError, st))
  /\ (forall st, run_sync ∅ st = run ∅ st).
Proof.
  split.
  - intros kw st k Hk [v Hv]. unfold run_sync, anyio_run.
    replace (run_kwargs_ok kw) with false; [reflexivity|].
    symmetry. unfold run_kwargs_ok. apply forallb_false_elem with (x := k).
    + apply list_elem_of_fmap. exists (k, v). split; [reflexivity|].
      now apply elem_of_map_to_list.
    + now apply spawn_keyword_not_run_keyword.
  - intros st. unfold run_sync, anyio_run, run_kwargs_ok.
    now rewrite map_to_list_empty.
Qed.

(** [env=...]: accepted by [run], which passes it to the spawn; a [TypeError]
    from [run_sync], which never gets as far as spawning. *)
Lemma run_sync_keywords_go_to_anyio_run_witness :
  fst (run kw_env st_hello) = Return (Some 0%Z, ("hello" +:+ LF)%string, ""%string)
  /\ run_sync kw_env st_hello = (Raise TypeError, st_hello).
Proof.
  split; [vm_compute; reflexivity|].
  apply (proj1 run_sync_keywords_go_to_anyio_run) with (k := "env"%string).
  - unfold open_process_keywords. rewrite !elem_of_cons. auto 10.
  - exists (KwValue "PATH=/bin"). apply lookup_insert_eq.
Defined.

(** * Further properties *)

(** ** X1: the pump calls the callback once per chunk, in order *)

Lemma callback_calls_app buffer evs1 evs2 :
  callback_calls buffer (evs1 ++ evs2)
  = callback_calls buffer evs2 ++ callback_calls buffer evs1.
Proof. unfold callback_calls. now rewrite rev_app_distr, omap_app. Qed.

Lemma callback_calls_pump_events stream cb buffer seen :
  callback_calls buffer (pump_events stream (Some cb) buffer seen)
  = imap (fun i text =>
            (text, negb (cb_is_coroutine cb),
             cb_call cb (rev (take i stream) ++ seen) text)) stream.
Proof.
  revert seen. induction stream as [|text rest IH]; intros seen; [reflexivity|].
  cbn [pump_events callback_event]. rewrite callback_calls_app, IH, imap_cons.
  unfold callback_calls at 1. cbn [rev app omap list_omap callback_call].
  rewrite Nat.eqb_refl. cbn [app]. f_equal.
  apply imap_ext. intros i x _. cbn [compose take rev].
  now rewrite <- app_assoc.
Qed.

Lemma fmap_fst_imap {B C} (f : nat -> string -> B) (g : nat -> string -> C) l :
  (fun c => fst (fst c)) <$> imap (fun i text => (text, f i text, g i text)) l = l.
Proof.
  revert f g. induction l as [|text rest IH]; intros f g; [reflexivity|].
  rewrite imap_cons. cbn [fmap list_fmap fst]. f_equal.
  exact (IH (fun i => f (S i)) (fun i => g (S i))).
Qed.

Lemma length_pump_events stream cb buffer seen :
  length (pump_events stream (Some cb) buffer seen) = length stream.
Proof.
  revert seen. induction stream as [|text rest IH]; intros seen; [reflexivity|].
  cbn [pump_events callback_event]. rewrite length_app, IH. simpl. lia.
Qed.

Lemma pump_events_no_callback stream buffer seen :
  pump_events stream None buffer seen = [].
Proof.
  revert seen. induction stream as [|text rest IH]; intros seen; [reflexivity|].
  cbn [pump_events callback_event]. now rewrite IH.
Qed.

(** X1.  A pump with a callback adds one event per chunk of its stream and
    nothing else: the callback is called once for each chunk, in the order of
    the stream, in a worker thread exactly when it is not a coroutine
    function, each time after all the chunks before it.  A pump with no
    callback adds no event at all. *)
Theorem pump_calls_callback_once_per_chunk stream buffer st :
  (forall cb,
      exists evs,
        trace (snd (_handle_stream stream (Some cb) buffer [] st)) = evs ++ trace st
        /\ length evs = length stream
        /\ callback_calls buffer evs
           = imap (fun i text =>
                     (text, negb (cb_is_coroutine cb),
                      cb_call cb (rev (take i stream)) text)) stream
        /\ callback_texts buffer evs = stream)
  /\ trace (snd (_handle_stream stream None buffer [] st)) = trace st.
Proof.
  split.
  - intros cb. exists (pump_events stream (Some cb) buffer []).
    rewrite handle_stream_returns. cbn [snd].
    split; [apply pump_state_trace|]. split; [apply length_pump_events|].
    assert (Hcalls : callback_calls buffer (pump_events stream (Some cb) buffer [])
                     = imap (fun i text =>
                               (text, negb (cb_is_coroutine cb),
                                cb_call cb (rev (take i stream)) text)) stream).
    { rewrite callback_calls_pump_events. apply imap_ext. intros i x _.
      now rewrite app_nil_r. }
    split; [exact Hcalls|].
    unfold callback_texts. rewrite Hcalls. apply fmap_fst_imap.
  - rewrite handle_stream_returns. cbn [snd].
    now rewrite pump_state_trace, pump_events_no_callback.
Qed.

(** ** X2: clear_history() while a pump is at work *)

(** X2.  A pump writes to the buffer object it was started with.  If
    [clear_history] is called while the pump is at work, the accessor reads a
    new buffer from then on: everything the pump reads afterwards goes to the
    old buffer, and the stdout accessor stays empty. *)
Theorem clear_history_detaches_pump st stream callback seen :
  _stdout_history (self st) < next_ref st ->
  let old := _stdout_history (self st) in
  let st' := snd (_handle_stream stream callback old seen (snd (clear_history st))) in
  stdout st' = ""%string
  /\ getvalue old st' = (getvalue old st +:+ text_of stream)%string.
Proof.
  intros Hold. cbv zeta. rewrite handle_stream_returns. cbn [snd].
  destruct (clear_history_frame st) as (_ & Hout & _ & _ & _ & _ & _ & _ & _ & _ & _ & _ & _ & _ & Hheap).
  split.
  - unfold stdout. rewrite pump_state_self.
    rewrite pump_state_other; [exact Hout|].
    unfold clear_history, bind, StringIO, modify. simpl. lia.
  - rewrite pump_state_value. f_equal. unfold getvalue. now rewrite Hheap.
Qed.

(** In the middle of the run of [stubborn], after "a" was captured: the
    history is cleared, the pump reads "b" and "c", the accessor stays empty. *)
Lemma clear_history_detaches_pump_witness :
  let st := snd (StringIO_write 2 "a" st_running) in
  let st' := snd (_handle_stream ["b"; "c"]%string (Some raising) 2 ["a"%string]
                    (snd (clear_history st))) in
  stdout st = "a"%string
  /\ stdout st' = ""%string
  /\ getvalue 2 st' = "abc"%string.
Proof.
  cbv zeta.
  assert (H : _stdout_history (self (snd (StringIO_write 2 "a" st_running)))
              < next_ref (snd (StringIO_write 2 "a" st_running)))
    by (vm_compute; lia).
  destruct (clear_history_detaches_pump _ ["b"; "c"]%string (Some raising)
              ["a"%string] H) as [Hout Hold].
  split; [vm_compute; reflexivity|]. split; [exact Hout|].
  etransitivity; [exact Hold|]. vm_compute. reflexivity.
Defined.

(** ** X3: a run starts from scratch *)



(** ** X4: when run() returns *)


(** ** X5: keywords run() cannot pass on *)

Lemma spawn_kwargs_bad_key (kw : kwargs) k :
  is_Some (kw !! k) ->
  k = "cwd"%string \/ keyword_in open_process_keywords k = false ->
  spawn_kwargs_ok kw = false.
Proof.
  intros [v Hv] Hk. unfold spawn_kwargs_ok.
  apply forallb_false_elem with (x := k).
  - apply list_elem_of_fmap. exists (k, v). split; [reflexivity|].
    now apply elem_of_map_to_list.
  - destruct Hk as [-> | ->]; [reflexivity|reflexivity].
Qed.

(** X5.  [run] gives [cwd] to the spawn itself, so a [cwd] keyword, like any
    keyword the spawn does not have, makes the call fail with [TypeError]:
    no process is started, no event is logged, the accessors are empty and
    the instance holds no process. *)
Theorem run_rejects_keywords kw st k :
  is_Some (kw !! k) ->
  k = "cwd"%string \/ keyword_in open_process_keywords k = false ->
  let st' := snd (run kw st) in
  fst (run kw st) = Raise TypeError
  /\ procs st' = procs st
  /\ trace st' = trace st
  /\ stdout st' = ""%string
  /\ stderr st' = ""%string
  /\ is_running st' = false.
Proof.
  intros Hv Hk. cbv zeta.
  rewrite (run_bad_keyword kw st (spawn_kwargs_bad_key kw k Hv Hk)). cbn [fst snd].
  rewrite no_process_state_stdout, no_process_state_stderr.
  repeat split; reflexivity.
Qed.

(** [run(cwd="/tmp")] on the [echo hello] instance. *)
Lemma run_rejects_keywords_witness :
  fst (run (<["cwd"%string := KwValue "/tmp"]> ∅) st_hello) = Raise TypeError
  /\ trace (snd (run (<["cwd"%string := KwValue "/tmp"]> ∅) st_hello)) = [].
Proof.
  assert (H1 : is_Some ((<["cwd"%string := KwValue "/tmp"]> ∅ : kwargs) !! "cwd"%string))
    by (exists (KwValue "/tmp"); apply lookup_insert_eq).
  destruct (run_rejects_keywords _ st_hello "cwd"%string H1 (or_introl eq_refl))
    as (Hr & _ & Ht & _).
  split; [exact Hr|exact Ht].
Defined.

(** ** When a run is over, and which buffers it leaves *)




(** ** X6: how long a run lasts *)



(** ** X7: a run that never returns *)


(** ** X8: the callbacks are handed what is captured *)









(** ** X9, X10: the task run_process *)

Lemma spawn_kwargs_ok_empty : spawn_kwargs_ok ∅ = true.
Proof. unfold spawn_kwargs_ok. now rewrite map_to_list_empty. Qed.








(** ** X11, X12: the log-level validator *)

Lemma is_level_spec (name_to_level : gmap string Z) n :
  Config.is_level name_to_level n = true <-> exists name, name_to_level !! name = Some n.
Proof.
  unfold Config.is_level. rewrite existsb_exists. split.
  - intros (x & Hin & Heq). apply Z.eqb_eq in Heq. subst x.
    apply list_elem_of_In, list_elem_of_fmap in Hin as ([name lvl] & -> & Hin).
    exists name. now apply elem_of_map_to_list.
  - intros (name & Hname). exists n. split; [|apply Z.eqb_refl].
    apply list_elem_of_In, list_elem_of_fmap. exists (name, n).
    split; [reflexivity|]. now apply elem_of_map_to_list.
Qed.

(** X11.  A level given by its name and the same level given by its number
    are validated alike: both end as the inner validator ends on the number.
    A name the mapping does not have and a number that is no level of the
    mapping fail the assertion; a value that is neither a [str] nor an [int]
    is a [ValueError]. *)
Theorem log_level_name_and_number_agree {R} (name_to_level : gmap string Z)
    (handler : Config.pyval -> Config.result R) :
  (forall name level,
      name_to_level !! name = Some level ->
      Config.validate_log_level_pydantic name_to_level (Config.PyStr name) handler
      = handler (Config.PyInt level)
      /\ Config.validate_log_level_pydantic name_to_level (Config.PyInt level) handler
         = handler (Config.PyInt level))
  /\ (forall name,
        name_to_level !! name = None ->
        Config.validate_log_level_pydantic name_to_level (Config.PyStr name) handler
        = Config.AssertionError)
  /\ (forall n,
        (forall name, name_to_level !! name <> Some n) ->
        Config.validate_log_level_pydantic name_to_level (Config.PyInt n) handler
        = Config.AssertionError)
  /\ (forall repr,
        Config.validate_log_level_pydantic name_to_level (Config.PyOther repr) handler
        = Config.ValueError (Config.PyOther repr)).
Proof.
  split; [|split; [|split]].
  - intros name level Hname. unfold Config.validate_log_level_pydantic.
    rewrite Hname. split; [reflexivity|]. cbn [Config.as_int].
    now rewrite (proj2 (is_level_spec name_to_level level) (ex_intro _ name Hname)).
  - intros name Hname. unfold Config.validate_log_level_pydantic. now rewrite Hname.
  - intros n Hn. unfold Config.validate_log_level_pydantic. cbn [Config.as_int].
    destruct (Config.is_level name_to_level n) eqn:E; [|reflexivity].
    apply is_level_spec in E as [name Hname]. now destruct (Hn name).
  - reflexivity.
Qed.

(** [LOG_LEVEL="INFO"] and [LOG_LEVEL=20] with the standard levels and an
    inner validator that returns the number it is given. *)
Lemma log_level_name_and_number_agree_witness :
  Config.validate_log_level_pydantic Config.standard_levels (Config.PyStr "INFO")
    (fun v => Config.Ok (Config.as_int v))
  = Config.Ok 20%Z
  /\ Config.validate_log_level_pydantic Config.standard_levels (Config.PyInt 20)
       (fun v => Config.Ok (Config.as_int v))
     = Config.Ok 20%Z.
Proof.
  apply (proj1 (log_level_name_and_number_agree Config.standard_levels
                  (fun v => Config.Ok (Config.as_int v))) "INFO"%string 20%Z).
  vm_compute. reflexivity.
Defined.

(** X12.  The inner validator is only ever called on an integer that is the
    level of some name in the mapping: in every other case the validator
    raises without calling it.  A [bool] counts as the integer it equals, so
    [False] passes exactly when some name has level 0. *)
Theorem log_level_handler_sees_levels_only {R} (name_to_level : gmap string Z)
    (v : Config.pyval) (handler : Config.pyval -> Config.result R) :
  let r := Config.validate_log_level_pydantic name_to_level v handler in
  (r = Config.AssertionError \/ r = Config.ValueError v
   \/ exists v' name,
        Config.is_int v' = true
        /\ name_to_level !! name = Some (Config.as_int v')
        /\ r = handler v')
  /\ (Config.validate_log_level_pydantic name_to_level (Config.PyBool false) handler
      = if Config.is_level name_to_level 0 then handler (Config.PyBool false)
        else Config.AssertionError).
Proof.
  cbv zeta. split; [|reflexivity].
  unfold Config.validate_log_level_pydantic.
  destruct v as [s|n|b|repr].
  - destruct (name_to_level !! s) as [level|] eqn:Hs; [|auto].
    right. right. exists (Config.PyInt level), s. auto.
  - destruct (Config.is_level name_to_level (Config.as_int (Config.PyInt n))) eqn:E;
      [|auto].
    apply is_level_spec in E as [name Hname].
    right. right. exists (Config.PyInt n), name. auto.
  - destruct (Config.is_level name_to_level (Config.as_int (Config.PyBool b))) eqn:E;
      [|auto].
    apply is_level_spec in E as [name Hname].
    right. right. exists (Config.PyBool b), name. auto.
  - auto.
Qed.

(** ** X13: get_settings() *)


(** ** X14: enqueue_tasks *)

Lemma foldl_append_map {A B} (f : A -> B) (l : list A) (acc : list B) :
  foldl (fun results i => results ++ [f i]) acc l = acc ++ (f <$> l).
Proof.
  revert acc. induction l as [|x l IH]; intros acc; simpl.
  - now rewrite app_nil_r.
  - rewrite IH, <- app_assoc. reflexivity.
Qed.

(** X14.  [enqueue_tasks(n)] queues the calls [add(0, 1)], [add(1, 2)], ...,
    [add(n-1, n)], in this order, and returns their handles: as many as [n]
    says, none at all when [n] is zero or negative. *)
Theorem enqueue_tasks_calls (n : Z) :
  Benchmark.enqueue_tasks n
  = (fun i => {| Benchmark.arg_a := i; Benchmark.arg_b := i + 1 |}) <$> seqZ 0 n
  /\ length (Benchmark.enqueue_tasks n) = Z.to_nat n
  /\ (forall k : nat,
        (Z.of_nat k < n)%Z ->
        Benchmark.enqueue_tasks n !! k
        = Some {| Benchmark.arg_a := Z.of_nat k; Benchmark.arg_b := Z.of_nat k + 1 |})
  /\ ((n <= 0)%Z -> Benchmark.enqueue_tasks n = []).
Proof.
  assert (Heq : Benchmark.enqueue_tasks n
    = (fun i => {| Benchmark.arg_a := i; Benchmark.arg_b := i + 1 |}) <$> seqZ 0 n).
  { unfold Benchmark.enqueue_tasks.
    now rewrite (foldl_append_map
                   (fun i => {| Benchmark.arg_a := i; Benchmark.arg_b := i + 1 |})). }
  split; [exact Heq|]. rewrite Heq. split; [|split].
  - now rewrite length_fmap, length_seqZ.
  - intros k Hk. rewrite list_lookup_fmap, lookup_seqZ_lt by exact Hk.
    reflexivity.
  - intros Hn. now rewrite seqZ_nil.
Qed.

(** ** X15: wait_for_results *)




(** ** X16: the benchmark task add *)

Lemma sum_squares_succ n :
  (0 <= n)%Z -> Benchmark.sum_squares (Z.succ n) = (Benchmark.sum_squares n + n * n)%Z.
Proof.
  intros Hn. unfold Benchmark.sum_squares.
  replace (Z.succ n) with (n + 1)%Z by lia.
  rewrite seqZ_app by lia. rewrite fmap_app, foldl_app.
  rewrite (seqZ_cons (0 + n) 1) by lia.
  rewrite (seqZ_nil (Z.succ (0 + n)) (Z.pred 1)) by lia. simpl.
  replace (0 + n)%Z with n by lia. reflexivity.
Qed.

(** The closed form of the sum of the squares below [n]. *)
Lemma sum_squares_closed n :
  (0 <= n)%Z -> (6 * Benchmark.sum_squares n = (n - 1) * n * (2 * n - 1))%Z.
Proof.
  revert n. apply natlike_ind; [reflexivity|].
  intros n Hn IH. rewrite sum_squares_succ by exact Hn. lia.
Qed.

Lemma cpu_work_value : Benchmark.cpu_work = 333328333350000%Z.
Proof.
  unfold Benchmark.cpu_work.
  pose proof (sum_squares_closed 100000 ltac:(lia)). lia.
Qed.

Lemma run_kwargs_ok_empty : run_kwargs_ok ∅ = true.
Proof. unfold run_kwargs_ok. now rewrite map_to_list_empty. Qed.

(** X16.  The task [add(a, b)] returns [a + b + 333328333350000] (the sum of
    the squares below 100000 being that number) exactly when [sleep 0.1] can
    be started and exits, whatever its exit code; it raises the spawn error
    when the system cannot start [sleep]; and, having no timeout, it never
    returns if the process never exits. *)
Theorem add_result a b st :
  fst (Benchmark.add a b st)
  = match os_exec st ["sleep"; "0.1"]%string "."%string ∅ with
    | Some g =>
        match prog_exit g with
        | Some _ => Return (a + b + 333328333350000)%Z
        | None => Hang
        end
    | None => Raise OSError
    end.
Proof.
  unfold Benchmark.add, anyio_run. rewrite run_kwargs_ok_empty, cpu_work_value.
  match goal with
  | |- fst (?m st) = ?rhs => change (wp m st (fun r _ => r = rhs))
  end.
  destruct (os_exec st ["sleep"; "0.1"]%string "."%string ∅) as [g|] eqn:Hos.
  - repeat wp_step.
    eapply wp_open_process; [exact spawn_kwargs_ok_empty|exact Hos|].
    repeat wp_step.
    destruct (prog_exit g) as [[t c]|] eqn:Hexit.
    + pose proof (new_process_exit g ∅ (clock st) t c Hexit) as Hpx.
      eapply wp_wait_exit; norm; [apply lookup_insert_eq|exact Hpx|reflexivity|].
      repeat wp_step.
      eapply wp_wait_exit; norm; [apply lookup_insert_eq|exact Hpx|reflexivity|].
      repeat wp_step. reflexivity.
    + eapply wp_wait_hang; norm; [apply lookup_insert_eq| |reflexivity].
      unfold new_process. simpl. now rewrite Hexit.
  - repeat wp_step.
    apply wp_open_process_refused; [exact spawn_kwargs_ok_empty|exact Hos|].
    reflexivity.
Qed.
